(** * GoAlert web client: typed configuration values and rendering gates

    A shallow embedding of [web/src/app/util/RequireConfig.tsx] (the
    configuration context, [parseValue], [isTrue], [mapConfig], the hooks
    [useSessionInfo] / [useConfig] and the [RequireConfig] gate) and of the
    index-driving part of the [LinkToMobile] dialog.

    Conventions of the embedding:
    - a JavaScript string is a [string]; every [ascii] stands for one code
      unit below 256 (so the only non-ASCII white space is U+00A0);
    - a JavaScript number produced by [parseInt] is [NaN] or [Int z], the
      Number the engine makes of the mathematical integer [z] its digits
      denote: [z] itself up to 2^53 in absolute value, the nearest double
      beyond, and a zero whose sign is not recorded.  None of this changes
      whether the number is zero, which is all the code looks at;
    - an object used as a dictionary is a [PlainObject]: its own properties
      (a [gmap]) and its prototype.  Reads go through the prototype chain
      and an assignment to ['__proto__'] goes to the accessor the object
      inherits; what the built-in prototypes hold is a parameter, the
      [Realm];
    - [throw] is the [Throw] case of [result]; hooks take the context value
      they read as an explicit argument. *)

From Stdlib Require Import ZArith Ascii String List Bool Lia.
From stdpp Require Import base option list strings pretty gmap.

Local Open Scope Z_scope.

(** ** The fragment of JavaScript the components use *)
Module JS.

(** What [parseInt] can return: [NaN], or the Number made of a mathematical
    integer.  [Int z] is that Number; it has the value [z] exactly when
    [z] is at most 2^53 in absolute value. *)
Inductive number : Type :=
| NaN
| Int (z : Z).

(** Run-time values that flow through the configuration code. *)
#[warnings="-register-all"]
Inductive jsval : Type :=
| JUndefined
| JNull
| JBool (b : bool)
| JNum (n : number)
| JStr (s : string)
| JArr (items : list jsval)
| JObject (name : string).  (* a function or other built-in object, by name *)

Inductive exn : Type :=
| TypeError (message : string).

(** A computation that returns or throws. *)
Inductive result (A : Type) : Type :=
| Ret (a : A)
| Throw (e : exn).
Arguments Ret {A} a.
Arguments Throw {A} e.

Definition bind {A B : Type} (r : result A) (k : A -> result B) : result B :=
  match r with
  | Ret a => k a
  | Throw e => Throw e
  end.

(** [result] is a monad; the components are written with stdpp's
    [x ← r; k]. *)
#[global] Instance result_ret : MRet result := fun A a => Ret a.
#[global] Instance result_bind : MBind result := fun A B k r => bind r k.

(** [Boolean(v)], the ToBoolean conversion. *)
Definition ToBoolean (v : jsval) : bool :=
  match v with
  | JUndefined | JNull => false
  | JBool b => b
  | JNum NaN => false
  | JNum (Int z) => negb (z =? 0)
  | JStr s => negb (String.eqb s "")
  | JArr _ | JObject _ => true
  end.

(** [Array.isArray(v)]. *)
Definition isArray (v : jsval) : bool :=
  match v with
  | JArr _ => true
  | _ => false
  end.

(** [Object.is] on the primitive values and the named objects; an array
    is an object with an identity of its own, which [jsval] does not
    record, so two array values are never reported the same. *)
Definition Object_is (a b : jsval) : bool :=
  match a, b with
  | JUndefined, JUndefined | JNull, JNull => true
  | JBool x, JBool y => Bool.eqb x y
  | JNum NaN, JNum NaN => true
  | JNum (Int x), JNum (Int y) => x =? y
  | JStr x, JStr y => String.eqb x y
  | JObject x, JObject y => String.eqb x y
  | _, _ => false
  end.

Definition code (c : ascii) : Z := Z.of_N (N_of_ascii c).

(** The line feed, ['\n']. *)
Definition LF : ascii := ascii_of_N 10.

(** White space and line terminators skipped by [parseInt]:
    TAB, LF, VT, FF, CR, SP and NBSP. *)
Definition isStrWhiteSpaceChar (c : ascii) : bool :=
  let n := code c in
  ((9 <=? n) && (n <=? 13)) || (n =? 32) || (n =? 160).

Fixpoint trimStart (s : string) : string :=
  match s with
  | String c rest => if isStrWhiteSpaceChar c then trimStart rest else s
  | EmptyString => s
  end.

(** The value of a digit ['0'..'9'], ['a'..'z'] or ['A'..'Z']. *)
Definition digitValue (c : ascii) : option Z :=
  let n := code c in
  if (48 <=? n) && (n <=? 57) then Some (n - 48)
  else if (97 <=? n) && (n <=? 122) then Some (n - 87)
  else if (65 <=? n) && (n <=? 90) then Some (n - 55)
  else None.

(** Reads the longest prefix of radix-[R] digits; [acc] is [None] until a
    digit has been read. *)
Fixpoint radixDigits (R : Z) (s : string) (acc : option Z) : option Z :=
  match s with
  | String c rest =>
      match digitValue c with
      | Some d =>
          if d <? R then radixDigits R rest (Some (R * default 0 acc + d))
          else acc
      | None => acc
      end
  | EmptyString => acc
  end.

Definition stripSign (s : string) : Z * string :=
  match s with
  | String c rest =>
      if Ascii.eqb c "-" then (-1, rest)
      else if Ascii.eqb c "+" then (1, rest)
      else (1, s)
  | EmptyString => (1, s)
  end.

Definition hasHexPrefix (s : string) : bool :=
  match s with
  | String z (String x _) => Ascii.eqb z "0" && (Ascii.eqb x "x" || Ascii.eqb x "X")
  | _ => false
  end.

Definition dropPrefix2 (s : string) : string :=
  match s with
  | String _ (String _ rest) => rest
  | _ => s
  end.

(** [parseInt(input, radix)] for a radix that is already an int32; the
    last step, from the integer read to a Number, is the [Int] of
    [number]. *)
Definition parseInt (input : string) (radix : Z) : number :=
  let '(sign, str) := stripSign (trimStart input) in
  if negb (radix =? 0) && ((radix <? 2) || (36 <? radix)) then NaN
  else
    let strip := ((radix =? 0) || (radix =? 16)) && hasHexPrefix str in
    let R := if strip then 16 else if radix =? 0 then 10 else radix in
    let digits := if strip then dropPrefix2 str else str in
    match radixDigits R digits None with
    | None => NaN
    | Some mathInt => Int (sign * mathInt)
    end.

(** [s.split(sep)] for a separator of one code unit: the segments between
    the occurrences of [sep]; a string without [sep] (the empty string
    too) is one segment. *)
Fixpoint split (s : string) (sep : ascii) : list string :=
  match s with
  | EmptyString => [EmptyString]
  | String c rest =>
      if Ascii.eqb c sep then EmptyString :: split rest sep
      else
        match split rest sep with
        | seg :: segs => String c seg :: segs
        | [] => [String c EmptyString]
        end
  end.

(** [segs.join(sep)], the inverse direction of [split]. *)
Fixpoint join (segs : list string) (sep : ascii) : string :=
  match segs with
  | [] => EmptyString
  | [seg] => seg
  | seg :: rest => seg +:+ String sep (join rest sep)
  end.

(** *** Plain objects *)

(** What the built-in prototypes of the engine hold: the data properties
    of [Object.prototype] and of [Array.prototype] (every one of them
    writable, and ['__proto__'] of [Object.prototype], an accessor, not
    among them), and what a read through any other built-in object
    yields. *)
Record Realm : Type := {
  ObjectPrototype : gmap string jsval;
  ArrayPrototype : gmap string jsval;
  builtin : string -> string -> jsval;
}.

(** The [[Prototype]] of an object. *)
Inductive Prototype : Type :=
| ProtoObjectPrototype               (* Object.prototype *)
| ProtoNull
| ProtoArray (items : list jsval)
| ProtoBuiltin (name : string).

Record PlainObject : Type := {
  own : gmap string jsval;
  proto : Prototype;
}.

(** The object literal [{}]. *)
Definition emptyObject : PlainObject :=
  {| own := ∅; proto := ProtoObjectPrototype |}.

(** Whether [Object.prototype], with its ['__proto__'] accessor, is on the
    chain that starts at this prototype (every array and every built-in
    object inherits from it). *)
Definition reachesObjectPrototype (p : Prototype) : bool :=
  match p with
  | ProtoNull => false
  | _ => true
  end.

Definition defineOwn (o : PlainObject) (key : string) (v : jsval) : PlainObject :=
  {| own := <[key := v]> (own o); proto := proto o |}.

Definition setPrototype (o : PlainObject) (p : Prototype) : PlainObject :=
  {| own := own o; proto := p |}.

(** [o[key] = v].  An own property is overwritten.  Otherwise the chain is
    searched: ['__proto__'] finds the accessor of [Object.prototype], whose
    setter makes an object or null the new prototype and ignores any other
    value; every other key finds a writable data property or nothing, and
    becomes an own property. *)
Definition assign (o : PlainObject) (key : string) (v : jsval) : PlainObject :=
  match own o !! key with
  | Some _ => defineOwn o key v
  | None =>
      if String.eqb key "__proto__" && reachesObjectPrototype (proto o) then
        match v with
        | JNull => setPrototype o ProtoNull
        | JArr items => setPrototype o (ProtoArray items)
        | JObject name =>
            setPrototype o (if String.eqb name "Object.prototype"
                            then ProtoObjectPrototype else ProtoBuiltin name)
        | _ => o
        end
      else defineOwn o key v
  end.

(** The item of an array at the index the key spells, counting from [i]. *)
Fixpoint itemAt (i : nat) (items : list jsval) (key : string) : option jsval :=
  match items with
  | [] => None
  | item :: rest =>
      if String.eqb key (pretty i) then Some item else itemAt (S i) rest key
  end.

(** The own properties of an array: its items and its [length]. *)
Definition arrayOwn (items : list jsval) (key : string) : option jsval :=
  if String.eqb key "length" then Some (JNum (Int (Z.of_nat (length items))))
  else itemAt 0 items key.

(** A read that did not find an own property goes on in the prototype;
    ['__proto__'] finds the getter of [Object.prototype], which returns the
    prototype of the object read from. *)
Definition inherited (realm : Realm) (p : Prototype) (key : string) : jsval :=
  match p with
  | ProtoNull => JUndefined
  | ProtoObjectPrototype =>
      if String.eqb key "__proto__" then JObject "Object.prototype"
      else default JUndefined (ObjectPrototype realm !! key)
  | ProtoArray items =>
      match arrayOwn items key with
      | Some v => v
      | None =>
          if String.eqb key "__proto__" then JArr items
          else
            match ArrayPrototype realm !! key with
            | Some v => v
            | None => default JUndefined (ObjectPrototype realm !! key)
            end
      end
  | ProtoBuiltin name =>
      if String.eqb key "__proto__" then JObject name
      else builtin realm name key
  end.

(** [o[key]]. *)
Definition get (realm : Realm) (o : PlainObject) (key : string) : jsval :=
  match own o !! key with
  | Some v => v
  | None => inherited realm (proto o) key
  end.

End JS.


(** ** [web/src/app/util/RequireConfig.tsx] *)
Module RequireConfig.
Import JS.


(** A [ConfigValue] as the query selects it: [{ id, type, value }].  The
    type tag arrives as JSON: a string, or nothing ([None], for an
    undefined or null tag). *)
Record ConfigValue : Type := {
  cv_id : string;
  cv_type : option string;
  cv_value : string;
}.

(** [ConfigData], [{ [x: string]: Value }]. *)
Abbreviation ConfigData := PlainObject.

(** The value held by [ConfigContext]; [ctx_userID] is [string | null]. *)
Record Context : Type := {
  ctx_config : list ConfigValue;
  ctx_isAdmin : bool;
  ctx_userID : option string;
}.

(** [React.createContext({ config: [], isAdmin: false, userID: null })]. *)
Definition defaultContext : Context :=
  {| ctx_config := []; ctx_isAdmin := false; ctx_userID := None |}.

(** The result of [query]: [data] is undefined until the fetch resolves,
    and [user] / [config] may be missing from it. *)
Record QueryUser : Type := {
  user_id : string;
  user_role : string;
}.

Record QueryData : Type := {
  data_user : option QueryUser;
  data_config : option (list ConfigValue);
}.

(** [string | null] as a value, for [Boolean(...)] and [... || null]. *)
Definition ofNullable (s : option string) : jsval :=
  match s with
  | Some str => JStr str
  | None => JNull
  end.

(** The context value [ConfigProvider] hands to its children. *)
Definition ConfigProvider (data : option QueryData) : Context :=
  {| ctx_config :=
       (* data?.config || []  (an array, even an empty one, is truthy) *)
       match data ≫= data_config with
       | Some config => config
       | None => []
       end;
     ctx_isAdmin :=
       (* data?.user?.role === 'admin' *)
       match data ≫= data_user with
       | Some user => String.eqb (user_role user) "admin"
       | None => false
       end;
     ctx_userID :=
       (* data?.user?.id || null *)
       match data ≫= data_user with
       | Some user =>
           if ToBoolean (JStr (user_id user)) then Some (user_id user) else None
       | None => None
       end |}.

(** [!type] for a type tag. *)
Definition tagMissing (type : option string) : bool :=
  negb (ToBoolean (ofNullable type)).

Definition parseValue (type : option string) (value : string) : result jsval :=
  if tagMissing type then Ret JNull
  else
    let tag := default EmptyString type in
    if String.eqb tag "boolean" then Ret (JBool (String.eqb value "true"))
    else if String.eqb tag "integer" then Ret (JNum (parseInt value 10))
    else if String.eqb tag "string" then Ret (JStr value)
    else if String.eqb tag "stringList" then
      if String.eqb value "" then Ret (JArr [])
      else Ret (JArr (JStr <$> split value LF))
    else Throw (TypeError ("unknown config type '" +:+ tag +:+ "'")).

Definition isTrue (value : jsval) : bool :=
  match value with
  | JArr items => (0 <? Z.of_nat (length items))
  | _ => ToBoolean value
  end.

(** The body of [mapConfig]'s [forEach]: [data[v.id] = parseValue(...)] for
    the entries in list order; a throwing [parseValue] ends the loop. *)
Fixpoint forEach_assign (value : list ConfigValue) (data : ConfigData)
  : result ConfigData :=
  match value with
  | [] => Ret data
  | v :: rest =>
      parsed ← parseValue (cv_type v) (cv_value v);
      forEach_assign rest (assign data (cv_id v) parsed)
  end.

Definition mapConfig (value : list ConfigValue) : result ConfigData :=
  forEach_assign value emptyObject.

Record SessionInfo : Type := {
  si_isAdmin : bool;
  si_userID : option string;
  si_ready : bool;
}.

Definition useSessionInfo (ctx : Context) : SessionInfo :=
  {| si_isAdmin := ctx_isAdmin ctx;
     si_userID := ctx_userID ctx;
     si_ready := ToBoolean (ofNullable (ctx_userID ctx)) |}.

Definition useConfig (ctx : Context) : result ConfigData :=
  mapConfig (ctx_config ctx).

Definition useConfigValue (realm : Realm) (fields : list string) (ctx : Context)
  : result (list jsval) :=
  config ← useConfig ctx;
  Ret (get realm config <$> fields).

Section Gate.

(** What a component renders, [null] apart. *)
Context {Element : Type}.

(** [React.ReactNode]; [None] is [null]. *)
Definition ReactNode : Type := option Element.

(** [RequireConfigProps]; an optional prop that was not passed is [None]. *)
Record RequireConfigProps : Type := {
  configID : string;
  test : option (jsval -> bool);
  else_ : option ReactNode;
  isAdmin : option bool;
  children : ReactNode;
}.

Definition RequireConfig (realm : Realm) (props : RequireConfigProps) (ctx : Context)
  : result ReactNode :=
  let test := default isTrue (test props) in
  let wantIsAdmin := default false (isAdmin props) in
  let elseValue := default None (else_ props) in
  config ← useConfig ctx;
  let isAdmin := si_isAdmin (useSessionInfo ctx) in
  if wantIsAdmin && negb isAdmin then Ret elseValue
  else if ToBoolean (JStr (configID props))
          && negb (test (get realm config (configID props)))
  then Ret elseValue
  else Ret (children props).

End Gate.

End RequireConfig.


(** ** The [LinkToMobile] dialog: the slide index and its effects *)
Module LinkToMobile.
Import JS.

(** One [authLinkStatus] result; a flag the server left out is [None]. *)
Record AuthLinkStatus : Type := {
  als_id : string;
  als_expiresAt : string;
  claimed : option bool;
  verified : option bool;
  authed : option bool;
}.

(** [data?.authLinkStatus.<flag> ?? '']: the polled flag, or [''] when
    there is no data or no flag. *)
Definition orEmpty (flag : option bool) : jsval :=
  match flag with
  | Some b => JBool b
  | None => JStr ""
  end.

(** The views [slideRenderer] chooses from; [NoSlide] is [null]. *)
Inductive Slide : Type :=
| ClaimCodeDisplay
| VerifyCodeFields
| Success
| Retry
| NoSlide.

Definition slideRenderer (index : Z) : Slide :=
  match index with
  | 0 => ClaimCodeDisplay
  | 1 => VerifyCodeFields
  | 2 => Success
  | 3 => Retry
  | _ => NoSlide
  end.

(** The component between two renders: its two [useState] cells, the
    latest [useQuery] result, and the dependency arrays React kept from the
    last commit ([None] before the first one). *)
Record State : Type := {
  showDialog : bool;
  index : Z;
  data : option AuthLinkStatus;
  deps_showDialog : option jsval;
  deps_claimed : option jsval;
  deps_verified : option jsval;
}.

(** What an effect body can do. *)
Inductive Call : Type :=
| createAuthLink
| setIndex (i : Z).

(** [useEffect(body, [dep])]: React runs [body] after the first render and
    after a render whose [dep] is not [Object.is] the one of the render
    before. *)
Definition depChanged (previous : option jsval) (dep : jsval) : bool :=
  match previous with
  | None => true
  | Some old => negb (Object_is old dep)
  end.

Definition useEffect (previous : option jsval) (dep : jsval) (body : list Call)
  : list Call :=
  if depChanged previous dep then body else [].

Definition claimedOf (st : State) : jsval := orEmpty (data st ≫= claimed).
Definition verifiedOf (st : State) : jsval := orEmpty (data st ≫= verified).

(** The calls made by the three effects of one render, in the order the
    component declares them. *)
Definition effects (st : State) : list Call :=
  useEffect (deps_showDialog st) (JBool (showDialog st))
    (if showDialog st then [createAuthLink] else [])
  ++ useEffect (deps_claimed st) (claimedOf st)
    (if ToBoolean (claimedOf st) then [setIndex 1] else [])
  ++ useEffect (deps_verified st) (verifiedOf st)
    (if ToBoolean (verifiedOf st) then [setIndex 2] else []).

Definition perform (st : State) (c : Call) : State :=
  match c with
  | createAuthLink => st
  | setIndex i =>
      {| showDialog := showDialog st; index := i; data := data st;
         deps_showDialog := deps_showDialog st;
         deps_claimed := deps_claimed st;
         deps_verified := deps_verified st |}
  end.

(** A render and its commit: the effects run, their state updates are
    applied in order, and the dependencies of this render are remembered.
    (The render the updates cause sees the same dependencies and runs no
    effect.) *)
Definition commit (st : State) : State :=
  let st' := fold_left perform (effects st) st in
  {| showDialog := showDialog st'; index := index st'; data := data st';
     deps_showDialog := Some (JBool (showDialog st));
     deps_claimed := Some (claimedOf st);
     deps_verified := Some (verifiedOf st) |}.

(** What makes the component render again. *)
Inductive Event : Type :=
| QueryResult (d : option AuthLinkStatus)  (* useQuery delivers a poll result *)
| ChangeIndex (i : Z)                      (* onChangeIndex={(i) => setIndex(i)} *)
| SetShowDialog (b : bool).                (* the button, onClose, Cancel *)

Definition handle (ev : Event) (st : State) : State :=
  match ev with
  | QueryResult d =>
      {| showDialog := showDialog st; index := index st; data := d;
         deps_showDialog := deps_showDialog st;
         deps_claimed := deps_claimed st;
         deps_verified := deps_verified st |}
  | ChangeIndex i => perform st (setIndex i)
  | SetShowDialog b =>
      {| showDialog := b; index := index st; data := data st;
         deps_showDialog := deps_showDialog st;
         deps_claimed := deps_claimed st;
         deps_verified := deps_verified st |}
  end.

Definition step (st : State) (ev : Event) : State := commit (handle ev st).

(** The first render: [useState(false)], [useState(0)], a skipped query. *)
Definition mount : State :=
  commit {| showDialog := false; index := 0; data := None;
            deps_showDialog := None; deps_claimed := None;
            deps_verified := None |}.

Definition run (evs : list Event) : State := fold_left step evs mount.

End LinkToMobile.


(** ** The [LinkToMobile] dialog: the auth link and its status query *)
Module AuthLink.
Import JS.

(** [createAuthLink { id claimCode }], the payload of the mutation. *)
Record CreatedLink : Type := {
  link_id : string;
  link_claimCode : string;
}.

(** [createAuthLinkStatus], the second component of [useMutation]:
    [data] is undefined until the mutation has answered. *)
Record MutationResult : Type := {
  mutation_data : option CreatedLink;
  mutation_loading : bool;
}.

(** [!createAuthLinkStatus.data && createAuthLinkStatus.loading]. *)
Definition loading (status : MutationResult) : bool :=
  negb (match mutation_data status with Some _ => true | None => false end)
  && mutation_loading status.

(** [createAuthLinkStatus?.data?.createAuthLink.id ?? '']. *)
Definition authLinkID (status : MutationResult) : string :=
  match mutation_data status with
  | Some link => link_id link
  | None => EmptyString
  end.

(** [createAuthLinkStatus?.data?.createAuthLink.claimCode ?? '']. *)
Definition claimCode (status : MutationResult) : string :=
  match mutation_data status with
  | Some link => link_claimCode link
  | None => EmptyString
  end.

(** The [skip] option of the status query, [loading || !authLinkID]. *)
Definition skip (status : MutationResult) : bool :=
  loading status || negb (ToBoolean (JStr (authLinkID status))).

(** The [variables] the status query is sent with, when it is sent. *)
Definition queryVariables (status : MutationResult) : option string :=
  if skip status then None else Some (authLinkID status).

(** What the dialog shows under its title: the spinner while [loading],
    the slides otherwise. *)
Inductive Body : Type :=
| Spinner
| Slides (authLinkID claimCode : string).

Definition dialogBody (status : MutationResult) : Body :=
  if loading status then Spinner
  else Slides (authLinkID status) (claimCode status).

End AuthLink.


(** ** Vocabulary of the statements *)
Import JS RequireConfig.

(** The type tags [parseValue] has a case for. *)
Definition knownTags : list string :=
  ["boolean"; "integer"; "string"; "stringList"].

(** A tag [!type] holds of: none at all, or the empty string. *)
Definition falsyTag (type : option string) : Prop :=
  type = None \/ type = Some EmptyString.

Definition isString (v : jsval) : bool :=
  match v with
  | JStr _ => true
  | _ => false
  end.

(** The shapes of [type Value = boolean | number | string | string[] | null]. *)
Definition isValue (v : jsval) : bool :=
  match v with
  | JNull | JBool _ | JNum _ | JStr _ => true
  | JArr items => forallb isString items
  | JUndefined | JObject _ => false
  end.

(** A tag [parseValue] accepts: a falsy one or one of the four. *)
Definition tagAccepted (type : option string) : Prop :=
  falsyTag type \/ exists tag, type = Some tag /\ tag ∈ knownTags.

(** The [userID] accessor as the specification words it: the fetched
    user's id whenever there is a user. *)
Definition userID_as_stated (data : option QueryData) : option string :=
  user_id <$> (data ≫= data_user).

(** A polled flag that is there and true. *)
Definition reportsTrue (flag : option bool) : bool :=
  match flag with
  | Some true => true
  | _ => false
  end.

(** A remembered dependency that is [true]. *)
Definition rememberedTrue (previous : option jsval) : bool :=
  match previous with
  | Some (JBool true) => true
  | _ => false
  end.

(** The poll result [d] reports [flag] ([claimed] or [verified]) as truthy. *)
Definition reportsTruthy (d : option LinkToMobile.AuthLinkStatus)
    (flag : LinkToMobile.AuthLinkStatus -> option bool) : bool :=
  ToBoolean (LinkToMobile.orEmpty (d ≫= flag)).

(** The data properties ECMAScript gives [Object.prototype], and the
    methods it gives [Array.prototype], each a function or object known by
    its name: a realm to evaluate examples in (the properties of the other
    built-in objects, which no example reads, are left out). *)
Definition standardRealm : Realm :=
  {| ObjectPrototype :=
       list_to_map
         ((fun name => (name, JObject ("Object.prototype." +:+ name))) <$>
          ["__defineGetter__"; "__defineSetter__"; "__lookupGetter__";
           "__lookupSetter__"; "hasOwnProperty"; "isPrototypeOf";
           "propertyIsEnumerable"; "toLocaleString"; "toString"; "valueOf"]%string)
       ∪ {["constructor"%string := JObject "Object"]};
     ArrayPrototype :=
       list_to_map
         ((fun name => (name, JObject ("Array.prototype." +:+ name))) <$>
          ["concat"; "copyWithin"; "entries"; "every"; "fill"; "filter"; "find";
           "findIndex"; "flat"; "flatMap"; "forEach"; "includes"; "indexOf";
           "join"; "keys"; "lastIndexOf"; "map"; "pop"; "push"; "reduce";
           "reduceRight"; "reverse"; "shift"; "slice"; "some"; "sort"; "splice";
           "toLocaleString"; "toString"; "unshift"; "values"]%string)
       ∪ {["constructor"%string := JObject "Array"]};
     builtin := fun _ _ => JUndefined |}.

(** A key that reads as [undefined] from [{}]: neither ['__proto__'] nor a
    property of [Object.prototype]. *)
Definition notInherited (realm : Realm) (key : string) : Prop :=
  key <> "__proto__"%string /\ ObjectPrototype realm !! key = None.

(** A decimal numeral: the characters of the digits [ds], and the integer
    they denote. *)
Definition digitChar (d : Z) : ascii := ascii_of_N (Z.to_N (48 + d)).

Fixpoint numeral (ds : list Z) : string :=
  match ds with
  | [] => EmptyString
  | d :: rest => String (digitChar d) (numeral rest)
  end.

Definition denotation (ds : list Z) : Z := fold_left (fun a d => 10 * a + d) ds 0.

(** Strings made of white space only. *)
Fixpoint allWhiteSpace (s : string) : bool :=
  match s with
  | EmptyString => true
  | String c rest => isStrWhiteSpaceChar c && allWhiteSpace rest
  end.

(** A string that does not go on with a decimal digit. *)
Definition noLeadingDigit (s : string) : bool :=
  match s with
  | EmptyString => true
  | String c _ =>
      match digitValue c with
      | Some d => 10 <=? d
      | None => true
      end
  end.

(** The ids of a config list, in list order. *)
Definition ids (value : list ConfigValue) : list string := cv_id <$> value.

(** The events of a run that are not swipes of the user. *)
Definition noSwipe (ev : LinkToMobile.Event) : bool :=
  match ev with
  | LinkToMobile.ChangeIndex _ => false
  | _ => true
  end.

(** The dependencies React remembers are those of the values the component
    holds: the state between two events. *)
Definition synced (st : LinkToMobile.State) : Prop :=
  LinkToMobile.deps_showDialog st = Some (JBool (LinkToMobile.showDialog st))
  /\ LinkToMobile.deps_claimed st = Some (LinkToMobile.claimedOf st)
  /\ LinkToMobile.deps_verified st = Some (LinkToMobile.verifiedOf st).

(** How often [c] occurs in [s]. *)
Fixpoint occurrences (c : ascii) (s : string) : nat :=
  match s with
  | EmptyString => O
  | String d rest => (if Ascii.eqb d c then 1 else 0)%nat + occurrences c rest
  end.

(** ** Facts about the JavaScript fragment *)
Section JSFacts.

Lemma split_not_nil (s : string) (sep : ascii) : split s sep <> [].
Proof.
  destruct s as [|c rest]; simpl; [discriminate|].
  destruct (Ascii.eqb c sep); [discriminate|].
  destruct (split rest sep); discriminate.
Qed.

(** Joining the segments with the separator gives the string back. *)
Lemma join_split (s : string) (sep : ascii) : join (split s sep) sep = s.
Proof.
  induction s as [|c rest IH]; simpl; [reflexivity|].
  destruct (Ascii.eqb_spec c sep) as [->|Hne].
  - pose proof (split_not_nil rest sep) as Hnil.
    simpl. destruct (split rest sep) as [|seg segs]; [congruence|].
    now rewrite IH.
  - destruct (split rest sep) as [|seg segs] eqn:E.
    + now destruct (split_not_nil rest sep).
    + simpl in *. destruct segs; simpl; now rewrite <- IH.
Qed.

(** No segment contains the separator. *)
Lemma split_segments_free (s : string) (sep : ascii) :
  Forall (fun seg => occurrences sep seg = O) (split s sep).
Proof.
  induction s as [|c rest IH]; simpl.
  - repeat constructor.
  - destruct (Ascii.eqb_spec c sep) as [->|Hne].
    + constructor; [reflexivity | exact IH].
    + destruct (split rest sep) as [|seg segs].
      * constructor; [|constructor]. simpl.
        destruct (Ascii.eqb_spec c sep); [contradiction | reflexivity].
      * inversion IH as [|? ? Hseg Hsegs]; subst.
        constructor; [|assumption]. simpl.
        destruct (Ascii.eqb_spec c sep); [contradiction | assumption].
Qed.

(** There is one segment more than there are separators. *)
Lemma split_length (s : string) (sep : ascii) :
  length (split s sep) = S (occurrences sep s).
Proof.
  induction s as [|c rest IH]; simpl; [reflexivity|].
  destruct (Ascii.eqb c sep); simpl.
  - now rewrite IH.
  - destruct (split rest sep) as [|seg segs]; simpl in *; congruence.
Qed.

Example split_lines :
  split ("a" +:+ String LF ("" +:+ String LF "b c")) LF = ["a"; ""; "b c"]%string.
Proof. reflexivity. Qed.

Example split_empty : split "" LF = [""]%string.
Proof. reflexivity. Qed.

Example parseInt_plain : parseInt "42" 10 = Int 42.
Proof. reflexivity. Qed.

Example parseInt_signed_prefix : parseInt "  -17px" 10 = Int (-17).
Proof. reflexivity. Qed.

Example parseInt_no_digits : parseInt "abc" 10 = NaN /\ parseInt "" 10 = NaN.
Proof. split; reflexivity. Qed.

Example parseInt_hex_is_zero_in_base_10 : parseInt "0x1f" 10 = Int 0.
Proof. reflexivity. Qed.

Example parseInt_hex : parseInt "0x1f" 16 = Int 31 /\ parseInt "0x1f" 0 = Int 31.
Proof. split; reflexivity. Qed.

Lemma digitChar_facts (d : Z) :
  0 <= d < 10 ->
  digitValue (digitChar d) = Some d
  /\ isStrWhiteSpaceChar (digitChar d) = false
  /\ Ascii.eqb (digitChar d) "-" = false
  /\ Ascii.eqb (digitChar d) "+" = false.
Proof.
  intros Hd.
  assert (H : d = 0 \/ d = 1 \/ d = 2 \/ d = 3 \/ d = 4 \/ d = 5 \/ d = 6 \/ d = 7
              \/ d = 8 \/ d = 9) by lia.
  repeat destruct H as [-> | H]; try subst d; repeat split; reflexivity.
Qed.

Lemma radixDigits_numeral (ds : list Z) (acc : Z) :
  Forall (fun d => 0 <= d < 10) ds ->
  radixDigits 10 (numeral ds) (Some acc)
  = Some (fold_left (fun a d => 10 * a + d) ds acc).
Proof.
  intros Hds. revert acc. induction Hds as [|d ds Hd _ IH]; intros acc; simpl.
  - reflexivity.
  - destruct (digitChar_facts d Hd) as (-> & _).
    destruct (Z.ltb_spec d 10) as [_|]; [|lia]. apply IH.
Qed.

(** On a decimal numeral [parseInt(_, 10)] is the integer it denotes. *)
Lemma parseInt_numeral (d : Z) (ds : list Z) :
  Forall (fun d => 0 <= d < 10) (d :: ds) ->
  parseInt (numeral (d :: ds)) 10 = Int (denotation (d :: ds)).
Proof.
  intros Hall. inversion Hall as [|? ? Hd Hds]; subst.
  destruct (digitChar_facts d Hd) as (Hval & Hws & Hminus & Hplus).
  unfold parseInt, denotation. cbn [numeral trimStart]. rewrite Hws.
  unfold stripSign. rewrite Hminus, Hplus.
  change (negb (10 =? 0) && ((10 <? 2) || (36 <? 10))) with false.
  change ((10 =? 0) || (10 =? 16)) with false. cbn [andb].
  change (10 =? 0) with false. cbn [radixDigits]. rewrite Hval.
  destruct (Z.ltb_spec d 10) as [_|]; [|lia].
  cbn [default]. rewrite (radixDigits_numeral ds _ Hds).
  cbn [fold_left]. now destruct (fold_left _ ds _).
Qed.

(** A string and a list never meet in [ToBoolean]: only the empty string
    is falsy, and every array is truthy. *)
Lemma ToBoolean_JStr (s : string) : ToBoolean (JStr s) = true <-> s <> EmptyString.
Proof.
  simpl. destruct (String.eqb_spec s ""); simpl; split; congruence.
Qed.

End JSFacts.

(** ** [parseValue] *)
Section ParseValue.

Lemma parseValue_boolean (value : string) :
  parseValue (Some "boolean") value = Ret (JBool (String.eqb value "true")).
Proof. reflexivity. Qed.

Lemma parseValue_integer (value : string) :
  parseValue (Some "integer") value = Ret (JNum (parseInt value 10)).
Proof. reflexivity. Qed.

Lemma parseValue_string (value : string) :
  parseValue (Some "string") value = Ret (JStr value).
Proof. reflexivity. Qed.

Lemma parseValue_stringList (value : string) :
  parseValue (Some "stringList") value =
  Ret (JArr (if String.eqb value "" then [] else JStr <$> split value LF)).
Proof. unfold parseValue; simpl. now destruct (String.eqb value ""). Qed.

Lemma parseValue_missing (type : option string) (value : string) :
  falsyTag type -> parseValue type value = Ret JNull.
Proof. intros [-> | ->]; reflexivity. Qed.

Lemma parseValue_unknown (tag value : string) :
  tag <> EmptyString -> tag ∉ knownTags ->
  parseValue (Some tag) value =
  Throw (TypeError ("unknown config type '" +:+ tag +:+ "'")).
Proof.
  intros Hne Hnot. unfold parseValue, tagMissing; simpl.
  destruct (String.eqb_spec tag "") as [|_]; [contradiction|]. simpl.
  repeat match goal with
  | |- context [String.eqb tag ?lit] =>
      destruct (String.eqb_spec tag lit) as [Heq|_];
      [exfalso; apply Hnot; rewrite Heq; unfold knownTags; set_solver|]
  end.
  reflexivity.
Qed.

Lemma parseValue_known (tag value : string) :
  tag ∈ knownTags -> exists x, parseValue (Some tag) value = Ret x /\ isValue x = true.
Proof.
  unfold knownTags. rewrite !elem_of_cons, elem_of_nil.
  intros [-> | [-> | [-> | [-> | []]]]].
  - rewrite parseValue_boolean. eauto.
  - rewrite parseValue_integer. eauto.
  - rewrite parseValue_string. eauto.
  - rewrite parseValue_stringList. eexists; split; [reflexivity|].
    destruct (String.eqb value ""); [reflexivity|]. simpl.
    induction (split value LF) as [|seg segs IH]; [reflexivity | exact IH].
Qed.

(** C1. A non-empty type tag outside ['boolean'], ['integer'], ['string'],
    ['stringList'] makes [parseValue] throw the TypeError
    [unknown config type '<tag>'], whatever the raw value; a tag among the
    four makes it return. *)
Theorem parseValue_throws_exactly_on_unknown_tag (tag value : string) :
  (tag <> EmptyString -> tag ∉ knownTags ->
     parseValue (Some tag) value =
     Throw (TypeError ("unknown config type '" +:+ tag +:+ "'")))
  /\ (tag ∈ knownTags -> exists x, parseValue (Some tag) value = Ret x).
Proof.
  split.
  - apply parseValue_unknown.
  - intros Hin. destruct (parseValue_known tag value Hin) as (x & Hx & _). eauto.
Qed.

Example parseValue_float_throws :
  parseValue (Some "float") "1.5" = Throw (TypeError "unknown config type 'float'").
Proof. reflexivity. Qed.

(** C2. The tag alone selects the rule: ['boolean'] compares the raw string
    with ["true"], ['integer'] is [parseInt(value, 10)], ['string'] is the
    raw string, and ['stringList'] is the empty list for the empty string
    and otherwise the segments between the line feeds. *)
Theorem parseValue_rule_by_tag (value : string) :
  (exists b, parseValue (Some "boolean") value = Ret (JBool b)
             /\ (b = true <-> value = "true"%string))
  /\ parseValue (Some "integer") value = Ret (JNum (parseInt value 10))
  /\ parseValue (Some "string") value = Ret (JStr value)
  /\ (value = EmptyString -> parseValue (Some "stringList") value = Ret (JArr []))
  /\ (value <> EmptyString ->
      parseValue (Some "stringList") value = Ret (JArr (JStr <$> split value LF))
      /\ join (split value LF) LF = value
      /\ Forall (fun seg => occurrences LF seg = O) (split value LF)).
Proof.
  repeat split.
  - exists (String.eqb value "true"). split; [reflexivity|].
    apply String.eqb_eq.
  - intros ->. reflexivity.
  - rewrite parseValue_stringList.
    destruct (String.eqb_spec value ""); [contradiction | reflexivity].
  - apply join_split.
  - apply split_segments_free.
Qed.

Example parseValue_examples :
  parseValue (Some "boolean") "true" = Ret (JBool true)
  /\ parseValue (Some "boolean") "True" = Ret (JBool false)
  /\ parseValue (Some "integer") "8443" = Ret (JNum (Int 8443))
  /\ parseValue (Some "integer") "" = Ret (JNum NaN)
  /\ parseValue (Some "stringList") ("a" +:+ String LF "b")
     = Ret (JArr [JStr "a"; JStr "b"]).
Proof. repeat split; reflexivity. Qed.

(** C4. With one of the four tags, or a falsy tag, [parseValue] returns a
    boolean, a number, a string, a list of strings or null. *)
Theorem parseValue_returns_a_Value (type : option string) (value : string) :
  falsyTag type \/ (exists tag, type = Some tag /\ tag ∈ knownTags) ->
  exists x, parseValue type value = Ret x /\ isValue x = true.
Proof.
  intros [Hfalsy | (tag & -> & Hin)].
  - rewrite (parseValue_missing _ _ Hfalsy). eauto.
  - now apply parseValue_known.
Qed.

Lemma parseValue_returns_a_Value_witness :
  exists x, parseValue (Some "stringList") ("x" +:+ String LF "y") = Ret x
            /\ isValue x = true.
Proof.
  apply (parseValue_returns_a_Value (Some "stringList")).
  right. exists "stringList"%string. split; [reflexivity|].
  unfold knownTags. set_solver.
Defined.

End ParseValue.

(** ** [isTrue] *)
Section IsTrue.

(** C9. The default test holds of a list exactly when it has an element,
    and of any other value exactly when [Boolean(value)] does; so it fails
    for null, false, 0, NaN and the empty string. *)
Theorem isTrue_lists_by_length_rest_by_truthiness (v : jsval) :
  (forall items, v = JArr items -> (isTrue v = true <-> items <> []))
  /\ (isArray v = false -> isTrue v = ToBoolean v)
  /\ isTrue JNull = false
  /\ isTrue (JBool false) = false
  /\ isTrue (JNum (Int 0)) = false
  /\ isTrue (JNum NaN) = false
  /\ isTrue (JStr "") = false.
Proof.
  split; [|split; [|repeat split]].
  - intros items ->. destruct items as [|x items]; simpl.
    + split; [discriminate | congruence].
    + split; [discriminate | reflexivity].
  - destruct v; simpl; try reflexivity. discriminate.
Qed.

(** The array test is what separates [isTrue] from [Boolean]: an empty
    list is truthy in JavaScript. *)
Example isTrue_empty_list : isTrue (JArr []) = false /\ ToBoolean (JArr []) = true.
Proof. split; reflexivity. Qed.

Example isTrue_undefined : isTrue JUndefined = false.
Proof. reflexivity. Qed.

End IsTrue.

(** ** [ConfigProvider] and [useSessionInfo] *)
Section Session.

Lemma ConfigProvider_isAdmin (data : option QueryData) :
  ctx_isAdmin (ConfigProvider data) = true
  <-> exists user, data ≫= data_user = Some user /\ user_role user = "admin"%string.
Proof.
  unfold ConfigProvider; simpl. destruct (data ≫= data_user) as [user|].
  - rewrite String.eqb_eq. split.
    + intros H. exists user. auto.
    + intros (u & [= ->] & H). exact H.
  - split; [discriminate|]. intros (u & H & _). discriminate.
Qed.

Lemma ConfigProvider_userID_no_user (data : option QueryData) :
  data ≫= data_user = None -> ctx_userID (ConfigProvider data) = None.
Proof. unfold ConfigProvider; simpl. now intros ->. Qed.

(** C5. Missing data is replaced, not reported: no [config] in the query
    data gives the empty list, no [user] gives a null [userID], and a
    missing or empty type tag makes [parseValue] return null. *)
Theorem missing_data_falls_back :
  (forall data, data ≫= data_config = None -> ctx_config (ConfigProvider data) = [])
  /\ (forall data, data ≫= data_user = None -> ctx_userID (ConfigProvider data) = None)
  /\ (forall type value, falsyTag type -> parseValue type value = Ret JNull).
Proof.
  split; [|split].
  - intros data H. unfold ConfigProvider; simpl. now rewrite H.
  - apply ConfigProvider_userID_no_user.
  - apply parseValue_missing.
Qed.

Example ConfigProvider_before_fetch : ConfigProvider None = defaultContext.
Proof. reflexivity. Qed.

(** C6, as stated, fails for a user whose id is the empty string: the
    provider gives null, not the id. *)
Lemma ConfigProvider_empty_id_gives_null :
  let data := Some {| data_user := Some {| user_id := ""; user_role := "user" |};
                      data_config := None |} in
  userID_as_stated data = Some EmptyString
  /\ ctx_userID (ConfigProvider data) = None
  /\ ctx_userID (ConfigProvider data) <> userID_as_stated data.
Proof. repeat split. discriminate. Qed.

(** C6 (amended). [isAdmin] holds exactly when the fetched user's role is
    ['admin']; [userID] is the fetched user's id when there is a user and
    the id is not empty, and null otherwise. *)
Theorem ConfigProvider_accessors (data : option QueryData) :
  (ctx_isAdmin (ConfigProvider data) = true
   <-> exists user, data ≫= data_user = Some user /\ user_role user = "admin"%string)
  /\ (forall user, data ≫= data_user = Some user -> user_id user <> EmptyString ->
        ctx_userID (ConfigProvider data) = Some (user_id user))
  /\ (forall user, data ≫= data_user = Some user -> user_id user = EmptyString ->
        ctx_userID (ConfigProvider data) = None)
  /\ (data ≫= data_user = None -> ctx_userID (ConfigProvider data) = None).
Proof.
  split; [apply ConfigProvider_isAdmin|]. split; [|split].
  - intros user Hu Hne. unfold ConfigProvider; cbn [ctx_userID]. rewrite Hu.
    apply ToBoolean_JStr in Hne. now rewrite Hne.
  - intros user Hu He. unfold ConfigProvider; simpl. rewrite Hu, He. reflexivity.
  - apply ConfigProvider_userID_no_user.
Qed.

Example ConfigProvider_admin :
  ConfigProvider (Some {| data_user := Some {| user_id := "u-1"; user_role := "admin" |};
                          data_config := Some [] |})
  = {| ctx_config := []; ctx_isAdmin := true; ctx_userID := Some "u-1"%string |}.
Proof. reflexivity. Qed.

(** C8. [ready] holds exactly when [userID] is a non-empty string, and it
    does not look at the rest of the context: with a null or empty
    [userID] the session is not ready whatever config is there. *)
Theorem useSessionInfo_ready_only_from_userID (ctx : Context) :
  (si_ready (useSessionInfo ctx) = true
   <-> exists id, ctx_userID ctx = Some id /\ id <> EmptyString)
  /\ (forall config admin,
        si_ready (useSessionInfo {| ctx_config := config; ctx_isAdmin := admin;
                                    ctx_userID := ctx_userID ctx |})
        = si_ready (useSessionInfo ctx))
  /\ (ctx_userID ctx = None \/ ctx_userID ctx = Some EmptyString ->
      si_ready (useSessionInfo ctx) = false).
Proof.
  unfold useSessionInfo; simpl. split; [|split].
  - destruct (ctx_userID ctx) as [id|]; simpl.
    + change (negb (String.eqb id "")) with (ToBoolean (JStr id)).
      rewrite ToBoolean_JStr. split.
      * intros H. exists id. auto.
      * intros (id' & [= ->] & H). exact H.
    + split; [discriminate|]. intros (id & H & _). discriminate.
  - reflexivity.
  - intros [-> | ->]; reflexivity.
Qed.

Example useSessionInfo_config_without_user :
  si_ready (useSessionInfo
    {| ctx_config := [{| cv_id := "Mailgun.Enable"; cv_type := Some "boolean"%string;
                         cv_value := "true" |}];
       ctx_isAdmin := false; ctx_userID := None |}) = false.
Proof. reflexivity. Qed.

End Session.

(** ** [mapConfig] and [useConfig] *)
Section MapConfig.

Lemma parseValue_accepted (type : option string) (value : string) :
  tagAccepted type -> exists x, parseValue type value = Ret x.
Proof.
  intros [Hfalsy | (tag & -> & Hin)].
  - rewrite (parseValue_missing _ _ Hfalsy). eauto.
  - destruct (parseValue_known tag value Hin) as (x & Hx & _). eauto.
Qed.

Lemma parseValue_rejected (type : option string) (value : string) :
  ~ tagAccepted type ->
  exists tag, type = Some tag
    /\ parseValue type value = Throw (TypeError ("unknown config type '" +:+ tag +:+ "'")).
Proof.
  intros Hno. destruct type as [tag|].
  - exists tag. split; [reflexivity|]. apply parseValue_unknown.
    + intros ->. apply Hno. left. now right.
    + intros Hin. apply Hno. right. eauto.
  - exfalso. apply Hno. left. now left.
Qed.

Lemma tagAccepted_dec (type : option string) : {tagAccepted type} + {~ tagAccepted type}.
Proof.
  destruct type as [tag|]; [|left; left; now left].
  destruct (decide (tag = EmptyString)) as [->|Hne]; [left; left; now right|].
  destruct (decide (tag ∈ knownTags)) as [Hin|Hnot].
  - left. right. eauto.
  - right. intros [[H | H] | (t & [= <-] & Hin)]; congruence.
Qed.

(** The loop either runs to the end of the list or stops at the first
    entry whose tag is not accepted. *)
Lemma forEach_assign_returns (value : list ConfigValue) (data : ConfigData) :
  Forall (fun v => tagAccepted (cv_type v)) value ->
  exists data', forEach_assign value data = Ret data'.
Proof.
  intros Hall. revert data.
  induction Hall as [|v rest Hv _ IH]; intros data; simpl; [eauto|].
  destruct (parseValue_accepted _ (cv_value v) Hv) as (x & ->). simpl. apply IH.
Qed.

Lemma forEach_assign_throws (value : list ConfigValue) (data : ConfigData) :
  ~ Forall (fun v => tagAccepted (cv_type v)) value ->
  exists e, forEach_assign value data = Throw e.
Proof.
  revert data. induction value as [|v rest IH]; intros data Hno.
  - destruct Hno. constructor.
  - simpl. destruct (tagAccepted_dec (cv_type v)) as [Hv | Hv].
    + destruct (parseValue_accepted _ (cv_value v) Hv) as (x & ->). simpl.
      apply IH. intros Hrest. apply Hno. now constructor.
    + destruct (parseValue_rejected _ (cv_value v) Hv) as (tag & _ & ->). simpl. eauto.
Qed.

(** *** Assignment, key by key *)

Lemma assign_plain_key (o : PlainObject) (key : string) (v : jsval) :
  key <> "__proto__"%string -> assign o key v = defineOwn o key v.
Proof.
  intros Hkey. unfold assign. destruct (own o !! key); [reflexivity|].
  destruct (String.eqb_spec key "__proto__"); [contradiction | reflexivity].
Qed.

(** Whatever key is assigned, an own property of another name is left as
    it was. *)
Lemma own_assign_ne (o : PlainObject) (key : string) (v : jsval) (k : string) :
  k <> key -> own (assign o key v) !! k = own o !! k.
Proof.
  intros Hk. unfold assign.
  destruct (own o !! key); [now apply lookup_insert_ne|].
  destruct (String.eqb key "__proto__" && reachesObjectPrototype (proto o));
    [|now apply lookup_insert_ne].
  destruct v; reflexivity.
Qed.

Lemma own_assign_eq (o : PlainObject) (key : string) (v : jsval) :
  key <> "__proto__"%string -> own (assign o key v) !! key = Some v.
Proof. intros Hkey. rewrite (assign_plain_key _ _ _ Hkey). apply lookup_insert_eq. Qed.

(** Keys the list does not mention keep what they had. *)
Lemma forEach_assign_other (value : list ConfigValue) (data data' : ConfigData) (k : string) :
  forEach_assign value data = Ret data' ->
  k ∉ cv_id <$> value -> own data' !! k = own data !! k.
Proof.
  revert data. induction value as [|v rest IH]; intros data; simpl.
  - now intros [= ->].
  - destruct (parseValue (cv_type v) (cv_value v)) as [x|e]; simpl; [|discriminate].
    intros Hrun Hk. apply not_elem_of_cons in Hk as [Hne Hk].
    rewrite (IH _ Hrun Hk). now apply own_assign_ne.
Qed.

(** Every entry that no later entry shadows, ['__proto__'] apart, ends up
    as an own property, with its own parsed value. *)
Lemma forEach_assign_last (value : list ConfigValue) (data data' : ConfigData)
    (before : list ConfigValue) (v : ConfigValue) (after : list ConfigValue) :
  forEach_assign value data = Ret data' ->
  value = before ++ v :: after ->
  cv_id v <> "__proto__"%string -> cv_id v ∉ cv_id <$> after ->
  exists x, parseValue (cv_type v) (cv_value v) = Ret x /\ own data' !! cv_id v = Some x.
Proof.
  intros Hrun -> Hkey Hlast. revert data Hrun.
  induction before as [|w before IH]; intros data; simpl.
  - destruct (parseValue (cv_type v) (cv_value v)) as [x|e]; simpl; [|discriminate].
    intros Hrun. exists x. split; [reflexivity|].
    rewrite (forEach_assign_other _ _ _ _ Hrun Hlast). now apply own_assign_eq.
  - destruct (parseValue (cv_type w) (cv_value w)) as [y|e]; simpl; [|discriminate].
    apply IH.
Qed.

Lemma forEach_assign_dom (value : list ConfigValue) (data data' : ConfigData) (k : string) :
  forEach_assign value data = Ret data' -> k <> "__proto__"%string ->
  k ∈ dom (own data') <-> k ∈ dom (own data) \/ k ∈ cv_id <$> value.
Proof.
  intros Hrun Hkey. revert data Hrun. induction value as [|v rest IH]; intros data; simpl.
  - intros [= ->]. rewrite elem_of_nil. tauto.
  - destruct (parseValue (cv_type v) (cv_value v)) as [x|e]; simpl; [|discriminate].
    intros Hrun. rewrite (IH _ Hrun), elem_of_cons, !elem_of_dom.
    destruct (decide (k = cv_id v)) as [->|Hne].
    + rewrite (own_assign_eq _ _ _ Hkey). intuition eauto.
    + rewrite (own_assign_ne _ _ _ _ Hne). tauto.
Qed.

(** A list without the id ['__proto__'] leaves the prototype alone and
    creates no own property of that name. *)
Lemma forEach_assign_prototype (value : list ConfigValue) (data data' : ConfigData) :
  forEach_assign value data = Ret data' ->
  "__proto__"%string ∉ cv_id <$> value ->
  proto data' = proto data.
Proof.
  revert data. induction value as [|v rest IH]; intros data; simpl.
  - now intros [= ->].
  - destruct (parseValue (cv_type v) (cv_value v)) as [x|e]; simpl; [|discriminate].
    intros Hrun Hk. apply not_elem_of_cons in Hk as [Hne Hk].
    rewrite (IH _ Hrun Hk), assign_plain_key by congruence. reflexivity.
Qed.

(** C10, as stated, fails on a list with an entry of unrecognised type:
    [mapConfig] throws and there is no object. *)
Lemma mapConfig_unknown_tag_throws :
  let value := [ {| cv_id := "Mailgun.Enable"; cv_type := Some "boolean"%string;
                    cv_value := "true" |};
                 {| cv_id := "Maintenance.Ratio"; cv_type := Some "float"%string;
                    cv_value := "0.5" |} ] in
  mapConfig value = Throw (TypeError "unknown config type 'float'")
  /\ forall data, mapConfig value <> Ret data.
Proof. split; [reflexivity | discriminate]. Qed.

(** C10 (amended). For a list whose type tags are each falsy or one of the
    four and in which no id is ['__proto__'], [mapConfig] returns an object
    whose own keys are exactly the ids of the list, each holding (and
    reading as) the [parseValue] of the last entry with that id, and whose
    prototype is still [Object.prototype]; for a list with any other tag
    it throws. *)
Theorem mapConfig_keys_and_last_entry (value : list ConfigValue) :
  (Forall (fun v => tagAccepted (cv_type v)) value ->
   "__proto__"%string ∉ cv_id <$> value ->
   exists data, mapConfig value = Ret data
     /\ (forall k, k ∈ dom (own data) <-> k ∈ cv_id <$> value)
     /\ (forall before v after,
           value = before ++ v :: after -> cv_id v ∉ cv_id <$> after ->
           exists x, parseValue (cv_type v) (cv_value v) = Ret x
                     /\ own data !! cv_id v = Some x
                     /\ forall realm, get realm data (cv_id v) = x)
     /\ proto data = ProtoObjectPrototype)
  /\ (~ Forall (fun v => tagAccepted (cv_type v)) value ->
      exists e, mapConfig value = Throw e).
Proof.
  unfold mapConfig. split.
  - intros Hall Hplain.
    destruct (forEach_assign_returns value emptyObject Hall) as (data & Hrun).
    exists data. split; [exact Hrun|]. split; [|split].
    + intros k. destruct (decide (k = "__proto__"%string)) as [->|Hkey].
      * rewrite elem_of_dom, (forEach_assign_other _ _ _ _ Hrun Hplain). simpl.
        rewrite lookup_empty. split; [intros [x [=]] | contradiction].
      * rewrite (forEach_assign_dom _ _ _ k Hrun Hkey). simpl.
        rewrite dom_empty, elem_of_empty. tauto.
    + intros before v after Hsplit Hlast.
      assert (Hkey : cv_id v <> "__proto__"%string).
      { intros Hv. apply Hplain. rewrite Hsplit, fmap_app, fmap_cons, Hv.
        apply elem_of_app. right. now left. }
      destruct (forEach_assign_last _ _ _ _ _ _ Hrun Hsplit Hkey Hlast) as (x & Hx & Hown).
      exists x. split; [exact Hx|]. split; [exact Hown|].
      intros realm. unfold get. now rewrite Hown.
    + apply (forEach_assign_prototype _ _ _ Hrun Hplain).
  - apply forEach_assign_throws.
Qed.

Example mapConfig_duplicate_id :
  mapConfig [ {| cv_id := "A"; cv_type := Some "integer"%string; cv_value := "1" |};
              {| cv_id := "B"; cv_type := None; cv_value := "x" |};
              {| cv_id := "A"; cv_type := Some "string"%string; cv_value := "2" |} ]
  = Ret {| own := <["A"%string := JStr "2"]> (<["B"%string := JNull]> ∅);
           proto := ProtoObjectPrototype |}.
Proof. vm_compute. reflexivity. Qed.

(** An entry with the id ['__proto__'] is handed to the inherited setter:
    a string is dropped and no own key appears, a string list becomes the
    prototype, null removes the prototype (and then the next such entry is
    an own property). *)
Example mapConfig_proto_entries :
  let entry type value := {| cv_id := "__proto__"; cv_type := type; cv_value := value |} in
  mapConfig [entry (Some "string"%string) "x"] = Ret emptyObject
  /\ mapConfig [entry (Some "stringList"%string) "x"]
     = Ret {| own := ∅; proto := ProtoArray [JStr "x"] |}
  /\ mapConfig [entry None ""] = Ret {| own := ∅; proto := ProtoNull |}
  /\ mapConfig [entry None ""; entry (Some "string"%string) "x"]
     = Ret {| own := {["__proto__"%string := JStr "x"]}; proto := ProtoNull |}.
Proof. repeat split; vm_compute; reflexivity. Qed.

End MapConfig.

Lemma mapConfig_keys_and_last_entry_witness :
  let a1 := {| cv_id := "A"; cv_type := Some "integer"%string; cv_value := "1" |} in
  let b := {| cv_id := "B"; cv_type := None; cv_value := "x" |} in
  let a2 := {| cv_id := "A"; cv_type := Some "stringList"%string; cv_value := "2" |} in
  exists data, mapConfig [a1; b; a2] = Ret data
    /\ (forall k, k ∈ dom (own data) <-> k ∈ cv_id <$> [a1; b; a2])
    /\ (forall before v after,
          [a1; b; a2] = before ++ v :: after -> cv_id v ∉ cv_id <$> after ->
          exists x, parseValue (cv_type v) (cv_value v) = Ret x
                    /\ own data !! cv_id v = Some x
                    /\ forall realm, get realm data (cv_id v) = x)
    /\ proto data = ProtoObjectPrototype.
Proof.
  intros a1 b a2.
  apply (proj1 (mapConfig_keys_and_last_entry [a1; b; a2])).
  - constructor; [|constructor; [|constructor; [|constructor]]].
    + right. exists "integer"%string. split; [reflexivity|]. unfold knownTags. set_solver.
    + left. now left.
    + right. exists "stringList"%string. split; [reflexivity|]. unfold knownTags. set_solver.
  - simpl. rewrite !elem_of_cons, elem_of_nil. intros [H | [H | [H | []]]]; discriminate H.
Defined.

(** ** The [RequireConfig] gate *)
Section RequireConfigGate.

Context {Element : Type} (realm : Realm).

Lemma RequireConfig_unfold (props : @RequireConfigProps Element) (ctx : Context)
    (config : ConfigData) :
  useConfig ctx = Ret config ->
  RequireConfig realm props ctx =
  Ret (if default false (isAdmin props) && negb (ctx_isAdmin ctx) then default None (else_ props)
       else if ToBoolean (JStr (configID props))
               && negb (default isTrue (test props) (get realm config (configID props)))
            then default None (else_ props)
            else children props).
Proof.
  intros Hcfg. unfold RequireConfig. rewrite Hcfg. cbn [mbind result_bind bind].
  cbn [useSessionInfo si_isAdmin].
  destruct (default false (isAdmin props) && negb (ctx_isAdmin ctx)); [reflexivity|].
  destruct (ToBoolean (JStr (configID props)) && _); reflexivity.
Qed.

(** A config list that does not parse stops the component before either
    check. *)
Lemma RequireConfig_throws (props : @RequireConfigProps Element) (ctx : Context) (e : exn) :
  useConfig ctx = Throw e -> RequireConfig realm props ctx = Throw e.
Proof. intros Hcfg. unfold RequireConfig. now rewrite Hcfg. Qed.

(** C3 (amended). When every type tag of the context's config list is
    falsy or one of the four, the list parses to an object [config] and:
    if [isAdmin] is asked for and the session is not admin, the result is
    the [else] node (null if none was passed); otherwise, if [configID] is
    not empty and the test ([isTrue] if none was passed) fails on
    [config[configID]], it is the [else] node; otherwise it is [children];
    and nothing but the session's admin flag and the value read at
    [configID] enters the decision.  With any other tag in the list,
    [RequireConfig] throws the error of [useConfig] before either check. *)
Theorem RequireConfig_gate (props : @RequireConfigProps Element) (ctx : Context) :
  (Forall (fun v => tagAccepted (cv_type v)) (ctx_config ctx) ->
   exists config, useConfig ctx = Ret config /\
     let notAdmin := isAdmin props = Some true /\ si_isAdmin (useSessionInfo ctx) = false in
     let testFails :=
       configID props <> EmptyString
       /\ default isTrue (test props) (get realm config (configID props)) = false in
     let elseNode := default None (else_ props) in
     (notAdmin -> RequireConfig realm props ctx = Ret elseNode)
     /\ (~ notAdmin -> testFails -> RequireConfig realm props ctx = Ret elseNode)
     /\ (~ notAdmin -> ~ testFails -> RequireConfig realm props ctx = Ret (children props))
     /\ (forall ctx' config',
           useConfig ctx' = Ret config' ->
           si_isAdmin (useSessionInfo ctx') = si_isAdmin (useSessionInfo ctx) ->
           get realm config' (configID props) = get realm config (configID props) ->
           RequireConfig realm props ctx' = RequireConfig realm props ctx))
  /\ (~ Forall (fun v => tagAccepted (cv_type v)) (ctx_config ctx) ->
      exists e, useConfig ctx = Throw e /\ RequireConfig realm props ctx = Throw e).
Proof.
  split.
  - intros Hall.
    destruct (forEach_assign_returns (ctx_config ctx) emptyObject Hall) as (config & Hcfg).
    change (forEach_assign (ctx_config ctx) emptyObject) with (useConfig ctx) in Hcfg.
    exists config. split; [exact Hcfg|]. intros notAdmin testFails elseNode.
    subst notAdmin testFails elseNode.
    rewrite (RequireConfig_unfold props ctx config Hcfg). cbn [useSessionInfo si_isAdmin].
    pose proof (ToBoolean_JStr (configID props)) as Hid.
    repeat split.
    + intros [-> ->]. reflexivity.
    + intros Hadm [Hne Htest]. apply Hid in Hne. rewrite Hne, Htest.
      destruct (default false (isAdmin props) && negb (ctx_isAdmin ctx)); reflexivity.
    + intros Hadm Htest.
      assert (Hpass : default false (isAdmin props) && negb (ctx_isAdmin ctx) = false).
      { destruct (isAdmin props) as [[|]|], (ctx_isAdmin ctx); try reflexivity.
        exfalso. apply Hadm. split; reflexivity. }
      rewrite Hpass.
      destruct (ToBoolean (JStr (configID props))) eqn:Etruthy; [|reflexivity].
      destruct (default isTrue (test props) (get realm config (configID props))) eqn:Etest;
        [reflexivity|].
      exfalso. apply Htest. split; [now apply Hid | reflexivity].
    + intros ctx' config' Hcfg' Hadm Hget.
      rewrite (RequireConfig_unfold props ctx' config' Hcfg').
      cbn [useSessionInfo si_isAdmin] in Hadm. now rewrite Hadm, Hget.
  - intros Hno.
    destruct (forEach_assign_throws (ctx_config ctx) emptyObject Hno) as (e & He).
    change (forEach_assign (ctx_config ctx) emptyObject) with (useConfig ctx) in He.
    exists e. split; [exact He | now apply RequireConfig_throws].
Qed.

End RequireConfigGate.

(** C3, as stated, fails in a context whose config list has an entry of
    unrecognised type: [isAdmin] is asked for and the session is not admin,
    yet the result is not the [else] node, for [useConfig] has thrown
    before the check. *)
Lemma RequireConfig_throws_before_admin_check :
  let props := {| configID := "Mailgun.Enable"; test := None;
                  else_ := Some (Some "hidden"%string); isAdmin := Some true;
                  children := Some "panel"%string |} in
  let ctx := {| ctx_config := [{| cv_id := "Mailgun.Enable"; cv_type := Some "bool"%string;
                                  cv_value := "true" |}];
                ctx_isAdmin := false; ctx_userID := Some "u-1"%string |} in
  isAdmin props = Some true
  /\ si_isAdmin (useSessionInfo ctx) = false
  /\ forall realm,
       RequireConfig realm props ctx = Throw (TypeError "unknown config type 'bool'")
       /\ RequireConfig realm props ctx <> Ret (default None (else_ props)).
Proof. repeat split. discriminate. Qed.

Lemma RequireConfig_gate_witness :
  let props := {| configID := "Mailgun.Enable"; test := None; else_ := None;
                  isAdmin := Some true; children := Some "panel"%string |} in
  let ctx := {| ctx_config := [{| cv_id := "Mailgun.Enable"; cv_type := Some "boolean"%string;
                                  cv_value := "false" |}];
                ctx_isAdmin := true; ctx_userID := Some "u-1"%string |} in
  RequireConfig standardRealm props ctx = Ret None.
Proof.
  intros props ctx.
  assert (Hall : Forall (fun v => tagAccepted (cv_type v)) (ctx_config ctx)).
  { constructor; [|constructor]. right. exists "boolean"%string.
    split; [reflexivity|]. unfold knownTags. set_solver. }
  destruct (proj1 (RequireConfig_gate standardRealm props ctx) Hall)
    as (config & Hcfg & _ & Hfails & _).
  apply Hfails.
  - intros [_ H]. discriminate H.
  - split; [discriminate|]. injection Hcfg as <-. reflexivity.
Defined.

Example RequireConfig_missing_key_uses_undefined :
  RequireConfig standardRealm
    {| configID := "Slack.Enable"; test := None; else_ := Some (Some "off"%string);
       isAdmin := None; children := Some "on"%string |} defaultContext
  = Ret (Some "off"%string).
Proof. vm_compute. reflexivity. Qed.

Example RequireConfig_no_configID_no_check :
  RequireConfig standardRealm
    {| configID := ""; test := None; else_ := None;
       isAdmin := Some false; children := Some "on"%string |} defaultContext
  = Ret (Some "on"%string).
Proof. vm_compute. reflexivity. Qed.

(** A [configID] that names a member of [Object.prototype] reads that
    member, which is truthy. *)
Example RequireConfig_inherited_key :
  RequireConfig standardRealm
    {| configID := "constructor"; test := None; else_ := Some (Some "off"%string);
       isAdmin := None; children := Some "on"%string |} defaultContext
  = Ret (Some "on"%string).
Proof. vm_compute. reflexivity. Qed.

(** ** The slide index of [LinkToMobile] *)
Section LinkToMobileIndex.
Import LinkToMobile.

Lemma orEmpty_truthy (flag : option bool) : ToBoolean (orEmpty flag) = reportsTrue flag.
Proof. now destruct flag as [[|]|]. Qed.

Lemma rememberedTrue_orEmpty (flag : option bool) :
  rememberedTrue (Some (orEmpty flag)) = reportsTrue flag.
Proof. now destruct flag as [[|]|]. Qed.

(** An effect guarded by [if (flag)] with dependency [flag] fires exactly
    on a render where the flag is true and was not in the render before. *)
Lemma useEffect_guarded (previous : option jsval) (flag : option bool) (c : Call) :
  useEffect previous (orEmpty flag) (if ToBoolean (orEmpty flag) then [c] else [])
  = if reportsTrue flag && negb (rememberedTrue previous) then [c] else [].
Proof.
  unfold useEffect, depChanged.
  destruct flag as [[|]|]; simpl;
    try (now destruct previous as [old|]; [destruct (negb _)|]).
  destruct previous as [[| |[|]|[|]| | |]|]; reflexivity.
Qed.

Lemma perform_all_keeps (calls : list Call) (st : State) :
  let st' := fold_left perform calls st in
  showDialog st' = showDialog st /\ data st' = data st.
Proof.
  revert st. induction calls as [|c calls IH]; intros st; simpl; [now split|].
  destruct (IH (perform st c)) as [-> ->]. now destruct c.
Qed.

(** After a commit the remembered dependencies are those of the values the
    component holds. *)
Lemma commit_deps (st : State) :
  data (commit st) = data st
  /\ showDialog (commit st) = showDialog st
  /\ deps_showDialog (commit st) = Some (JBool (showDialog st))
  /\ deps_claimed (commit st) = Some (orEmpty (data st ≫= claimed))
  /\ deps_verified (commit st) = Some (orEmpty (data st ≫= verified)).
Proof.
  destruct (perform_all_keeps (effects st) st) as [Hshow Hdata].
  unfold commit; simpl. now rewrite Hshow, Hdata.
Qed.

Lemma run_deps (evs : list Event) :
  deps_showDialog (run evs) = Some (JBool (showDialog (run evs)))
  /\ deps_claimed (run evs) = Some (orEmpty (data (run evs) ≫= claimed))
  /\ deps_verified (run evs) = Some (orEmpty (data (run evs) ≫= verified)).
Proof.
  assert (Hcommit : forall st,
    deps_showDialog (commit st) = Some (JBool (showDialog (commit st)))
    /\ deps_claimed (commit st) = Some (orEmpty (data (commit st) ≫= claimed))
    /\ deps_verified (commit st) = Some (orEmpty (data (commit st) ≫= verified))).
  { intros st. destruct (commit_deps st) as (-> & -> & -> & -> & ->). now repeat split. }
  unfold run. destruct evs as [|ev evs _] using rev_ind.
  - apply Hcommit.
  - rewrite fold_left_app. apply Hcommit.
Qed.

(** The calls of the render that follows a poll result, in a state whose
    [showDialog] dependency is up to date. *)
Lemma effects_after_poll (st : State) (d : option AuthLinkStatus) :
  deps_showDialog st = Some (JBool (showDialog st)) ->
  effects (handle (QueryResult d) st)
  = (if reportsTrue (d ≫= claimed) && negb (rememberedTrue (deps_claimed st))
     then [setIndex 1] else [])
    ++ (if reportsTrue (d ≫= verified) && negb (rememberedTrue (deps_verified st))
        then [setIndex 2] else []).
Proof.
  intros Hshow. unfold effects, claimedOf, verifiedOf; cbn [handle data deps_claimed
    deps_verified deps_showDialog showDialog].
  rewrite !useEffect_guarded, Hshow. unfold useEffect, depChanged.
  replace (Object_is (JBool (showDialog st)) (JBool (showDialog st))) with true
    by (simpl; now destruct (showDialog st)).
  reflexivity.
Qed.

(** C7, as stated, fails once the flag has been seen: the dialog is open,
    a result reports [claimed] and the index goes to 1; the user swipes
    back to the first slide; the next result still reports [claimed], no
    effect runs and the index stays 0. *)
Lemma poll_still_claimed_leaves_index :
  let d := Some {| als_id := "link-1"; als_expiresAt := "2020-06-01T00:00:00Z";
                   claimed := Some true; verified := Some false;
                   authed := Some false |} in
  let st := run [SetShowDialog true; QueryResult d; ChangeIndex 0] in
  showDialog st = true
  /\ index (run [SetShowDialog true; QueryResult d]) = 1
  /\ reportsTruthy d claimed = true
  /\ effects (handle (QueryResult d) st) = []
  /\ index (step st (QueryResult d)) = 0
  /\ slideRenderer (index (step st (QueryResult d))) = ClaimCodeDisplay.
Proof. repeat split. Qed.

(** C7 (amended). On the render that follows a poll result, [setIndex(1)]
    is called exactly when the result reports [claimed] truthy and the
    result before did not, and [setIndex(2)] exactly when it reports
    [verified] truthy and the result before did not; these are the only
    calls, [setIndex(2)] comes last, and without either the index is left
    where it was.  Index 1 renders the verify-code view and index 2 the
    success view. *)
Theorem poll_moves_index_when_flag_turns_truthy (evs : list Event)
    (d : option AuthLinkStatus) :
  let st := run evs in
  let calls := effects (handle (QueryResult d) st) in
  let claimedTurns := reportsTruthy d claimed && negb (reportsTruthy (data st) claimed) in
  let verifiedTurns := reportsTruthy d verified && negb (reportsTruthy (data st) verified) in
  (In (setIndex 1) calls <-> claimedTurns = true)
  /\ (In (setIndex 2) calls <-> verifiedTurns = true)
  /\ (forall c, In c calls -> c = setIndex 1 \/ c = setIndex 2)
  /\ index (step st (QueryResult d))
     = (if verifiedTurns then 2 else if claimedTurns then 1 else index st)
  /\ slideRenderer 1 = VerifyCodeFields
  /\ slideRenderer 2 = Success.
Proof.
  intros st calls claimedTurns verifiedTurns.
  destruct (run_deps evs) as (Hshow & Hclaimed & Hverified). fold st in Hshow, Hclaimed, Hverified.
  assert (Hcalls : calls = (if claimedTurns then [setIndex 1] else [])
                           ++ (if verifiedTurns then [setIndex 2] else [])).
  { subst calls claimedTurns verifiedTurns. unfold reportsTruthy.
    rewrite (effects_after_poll st d Hshow), Hclaimed, Hverified.
    now rewrite !rememberedTrue_orEmpty, !orEmpty_truthy. }
  assert (Hindex : index (step st (QueryResult d))
                   = index (fold_left perform calls (handle (QueryResult d) st)))
    by reflexivity.
  rewrite Hindex, Hcalls. clear Hindex Hcalls.
  destruct claimedTurns, verifiedTurns; simpl;
    intuition (try discriminate; subst; auto).
Qed.

Example poll_claimed_then_verified :
  let claimedOnly := Some {| als_id := "link-1"; als_expiresAt := "";
                             claimed := Some true; verified := Some false;
                             authed := None |} in
  let both := Some {| als_id := "link-1"; als_expiresAt := "";
                      claimed := Some true; verified := Some true;
                      authed := None |} in
  index (run []) = 0
  /\ index (run [SetShowDialog true; QueryResult claimedOnly]) = 1
  /\ index (run [SetShowDialog true; QueryResult claimedOnly; QueryResult both]) = 2
  /\ effects (handle (QueryResult both) (run [SetShowDialog true; QueryResult claimedOnly]))
     = [setIndex 2]
  /\ effects (handle (QueryResult both) (run [SetShowDialog true])) = [setIndex 1; setIndex 2].
Proof. repeat split. Qed.

End LinkToMobileIndex.

(** ** [parseValue] under [isTrue], and integers *)
Section ParsedTruth.

Lemma forallb_isString_JStr (segs : list string) :
  forallb isString (JStr <$> segs) = true.
Proof. induction segs as [|seg segs IH]; [reflexivity | exact IH]. Qed.

(** Whatever [parseValue] returns has one of the shapes of [Value]. *)
Lemma parseValue_Ret_isValue (type : option string) (value : string) (x : jsval) :
  parseValue type value = Ret x -> isValue x = true.
Proof.
  unfold parseValue. destruct (tagMissing type); [now intros [= <-]|].
  repeat match goal with
  | |- context [String.eqb ?a ?b] => destruct (String.eqb a b)
  end; intros [= <-]; try reflexivity.
  apply forallb_isString_JStr.
Qed.

Lemma trimStart_allWhiteSpace (ws rest : string) :
  allWhiteSpace ws = true -> trimStart (ws +:+ rest) = trimStart rest.
Proof.
  induction ws as [|c ws IH]; simpl; [reflexivity|].
  intros [Hc Hws]%andb_prop. rewrite Hc. now apply IH.
Qed.

Lemma radixDigits_numeral_then (ds : list Z) (tail : string) (acc : Z) :
  Forall (fun d => 0 <= d < 10) ds -> noLeadingDigit tail = true ->
  radixDigits 10 (numeral ds +:+ tail) (Some acc)
  = Some (fold_left (fun a d => 10 * a + d) ds acc).
Proof.
  intros Hds Htail. revert acc. induction Hds as [|d ds Hd _ IH]; intros acc; simpl.
  - destruct tail as [|c tail]; simpl in *; [reflexivity|].
    destruct (digitValue c) as [d|]; [|reflexivity].
    destruct (Z.ltb_spec d 10) as [|_]; [lia | reflexivity].
  - destruct (digitChar_facts d Hd) as (-> & _).
    destruct (Z.ltb_spec d 10) as [_|]; [|lia]. apply IH.
Qed.

Lemma parseInt_10_unfold (input : string) :
  parseInt input 10 =
  match radixDigits 10 (snd (stripSign (trimStart input))) None with
  | Some mathInt => Int (fst (stripSign (trimStart input)) * mathInt)
  | None => NaN
  end.
Proof.
  unfold parseInt. destruct (stripSign (trimStart input)) as [sign str]. reflexivity.
Qed.

Lemma trimStart_numeral (d : Z) (rest : string) :
  0 <= d < 10 -> trimStart (String (digitChar d) rest) = String (digitChar d) rest.
Proof.
  intros Hd. destruct (digitChar_facts d Hd) as (_ & Hws & _). simpl. now rewrite Hws.
Qed.

Lemma radixDigits_first (d : Z) (ds : list Z) (tail : string) :
  Forall (fun d => 0 <= d < 10) (d :: ds) -> noLeadingDigit tail = true ->
  radixDigits 10 (String (digitChar d) (numeral ds +:+ tail)) None
  = Some (denotation (d :: ds)).
Proof.
  intros Hall Htail. inversion Hall as [|? ? Hd Hds]; subst.
  destruct (digitChar_facts d Hd) as (Hval & _).
  cbn [radixDigits]. rewrite Hval. destruct (Z.ltb_spec d 10) as [_|]; [|lia].
  cbn [default]. rewrite (radixDigits_numeral_then ds tail _ Hds Htail). reflexivity.
Qed.

(** X1. An ['integer'] value is read the way [parseInt(value, 10)] reads
    it: white space before the number is skipped, a sign is applied, and
    whatever follows the digits is ignored.  For digits that denote at most
    2^53, which a Number holds exactly, the result is the integer they
    denote (negated after a ['-'], stated for a non-zero number). *)
Theorem parseValue_integer_reads_leading_numeral
    (ws : string) (d : Z) (ds : list Z) (tail : string) :
  allWhiteSpace ws = true ->
  Forall (fun d => 0 <= d < 10) (d :: ds) ->
  noLeadingDigit tail = true ->
  denotation (d :: ds) <= 2 ^ 53 ->
  parseValue (Some "integer") (ws +:+ numeral (d :: ds) +:+ tail)
  = Ret (JNum (Int (denotation (d :: ds))))
  /\ (0 < denotation (d :: ds) ->
      parseValue (Some "integer") (ws +:+ String "-" (numeral (d :: ds) +:+ tail))
      = Ret (JNum (Int (- denotation (d :: ds)))))
  /\ parseValue (Some "integer") (ws +:+ String "+" (numeral (d :: ds) +:+ tail))
     = Ret (JNum (Int (denotation (d :: ds)))).
Proof.
  intros Hws Hall Htail _.
  assert (Hd : 0 <= d < 10) by now inversion Hall.
  destruct (digitChar_facts d Hd) as (_ & _ & Hminus & Hplus).
  pose proof (radixDigits_first d ds tail Hall Htail) as Hdigits.
  rewrite !parseValue_integer, !parseInt_10_unfold, !(trimStart_allWhiteSpace _ _ Hws).
  change (numeral (d :: ds) +:+ tail) with (String (digitChar d) (numeral ds +:+ tail)).
  split; [|split].
  - rewrite (trimStart_numeral d _ Hd).
    unfold stripSign. rewrite Hminus, Hplus. cbn [fst snd]. rewrite Hdigits.
    now destruct (denotation (d :: ds)).
  - intros _. cbn [trimStart]. change (isStrWhiteSpaceChar "-") with false. cbv iota.
    cbn [stripSign]. change (Ascii.eqb "-" "-") with true. cbv iota. cbn [fst snd].
    rewrite Hdigits.
    replace (-1 * denotation (d :: ds)) with (- denotation (d :: ds)) by lia.
    reflexivity.
  - cbn [trimStart]. change (isStrWhiteSpaceChar "+") with false. cbv iota.
    cbn [stripSign]. change (Ascii.eqb "+" "-") with false.
    change (Ascii.eqb "+" "+") with true. cbv iota. cbn [fst snd].
    rewrite Hdigits.
    now destruct (denotation (d :: ds)).
Qed.

Lemma parseValue_integer_reads_leading_numeral_witness :
  parseValue (Some "integer") (" " +:+ numeral [4; 2] +:+ "px")
  = Ret (JNum (Int (denotation [4; 2])))
  /\ (0 < denotation [4; 2] ->
      parseValue (Some "integer") (" " +:+ String "-" (numeral [4; 2] +:+ "px"))
      = Ret (JNum (Int (- denotation [4; 2]))))
  /\ parseValue (Some "integer") (" " +:+ String "+" (numeral [4; 2] +:+ "px"))
     = Ret (JNum (Int (denotation [4; 2]))).
Proof.
  apply (parseValue_integer_reads_leading_numeral " " 4 [2] "px").
  - reflexivity.
  - repeat constructor; lia.
  - reflexivity.
  - vm_compute. discriminate.
Defined.

End ParsedTruth.

(** ** What the default test makes of a raw value *)
Section DefaultTestOnRaw.

Lemma isTrue_JStr (s : string) : isTrue (JStr s) = true <-> s <> EmptyString.
Proof. apply ToBoolean_JStr. Qed.

(** X2. Under the default test a ['boolean'] entry passes only for the raw
    string ["true"], a ['string'] or ['stringList'] entry passes exactly
    when the raw string is not empty, an ['integer'] entry passes exactly
    when [parseInt] finds a number other than zero, and an entry without a
    type tag never passes. *)
Theorem isTrue_of_parseValue (value : string) :
  (exists x, parseValue (Some "boolean") value = Ret x
             /\ (isTrue x = true <-> value = "true"%string))
  /\ (exists x, parseValue (Some "string") value = Ret x
                /\ (isTrue x = true <-> value <> EmptyString))
  /\ (exists x, parseValue (Some "stringList") value = Ret x
                /\ (isTrue x = true <-> value <> EmptyString))
  /\ (exists x, parseValue (Some "integer") value = Ret x
                /\ (isTrue x = true <-> exists z, parseInt value 10 = Int z /\ z <> 0))
  /\ (forall type, falsyTag type ->
        exists x, parseValue type value = Ret x /\ isTrue x = false).
Proof.
  split; [|split; [|split; [|split]]].
  - eexists. split; [apply parseValue_boolean|]. simpl. apply String.eqb_eq.
  - eexists. split; [apply parseValue_string|]. apply isTrue_JStr.
  - eexists. split; [apply parseValue_stringList|].
    destruct (String.eqb_spec value "") as [->|Hne]; simpl.
    + split; [discriminate | congruence].
    + rewrite length_fmap, split_length. split; [auto | reflexivity].
  - eexists. split; [apply parseValue_integer|]. simpl.
    destruct (parseInt value 10) as [|z].
    + split; [discriminate|]. intros (z & [=] & _).
    + rewrite negb_true_iff, Z.eqb_neq. split.
      * intros Hz. exists z. auto.
      * intros (z' & [= <-] & Hz). exact Hz.
  - intros type Hfalsy. exists JNull. split; [now apply parseValue_missing | reflexivity].
Qed.

(** X3. A ['stringList'] value becomes a list of strings that joined by
    line feeds give the raw string back; the list is empty for the empty
    string and otherwise has one item more than the raw string has line
    feeds. *)
Theorem parseValue_stringList_items (value : string) :
  exists segs,
    parseValue (Some "stringList") value = Ret (JArr (JStr <$> segs))
    /\ join segs LF = value
    /\ Forall (fun seg => occurrences LF seg = O) segs
    /\ length segs = (if String.eqb value "" then O else S (occurrences LF value)).
Proof.
  rewrite parseValue_stringList. destruct (String.eqb_spec value "") as [->|Hne].
  - exists []. repeat split. constructor.
  - exists (split value LF). split; [reflexivity|]. split; [apply join_split|].
    split; [apply split_segments_free | apply split_length].
Qed.

End DefaultTestOnRaw.

(** ** More on [mapConfig], [useConfig] and [useConfigValue] *)
Section ConfigObject.

Lemma forEach_assign_app (l1 l2 : list ConfigValue) (data : ConfigData) :
  forEach_assign (l1 ++ l2) data = bind (forEach_assign l1 data) (forEach_assign l2).
Proof.
  revert data. induction l1 as [|v l1 IH]; intros data; simpl; [reflexivity|].
  destruct (parseValue (cv_type v) (cv_value v)) as [x|e]; simpl; [apply IH | reflexivity].
Qed.




Lemma forEach_assign_first_rejected (before : list ConfigValue) (v : ConfigValue)
    (after : list ConfigValue) (data : ConfigData) (tag : string) :
  Forall (fun w => tagAccepted (cv_type w)) before ->
  cv_type v = Some tag -> ~ tagAccepted (cv_type v) ->
  forEach_assign (before ++ v :: after) data
  = Throw (TypeError ("unknown config type '" +:+ tag +:+ "'")).
Proof.
  intros Hbefore Htag Hno. revert data.
  induction Hbefore as [|w before Hw _ IH]; intros data; simpl.
  - destruct (parseValue_rejected _ (cv_value v) Hno) as (tag' & Htag' & ->).
    rewrite Htag in Htag'. now injection Htag' as <-.
  - destruct (parseValue_accepted _ (cv_value w) Hw) as (x & ->). simpl. apply IH.
Qed.

Lemma own_assign_cases (o : PlainObject) (key : string) (v : jsval) (k : string) (x : jsval) :
  own (assign o key v) !! k = Some x -> x = v \/ own o !! k = Some x.
Proof.
  unfold assign.
  assert (Hdefine : own (defineOwn o key v) !! k = Some x -> x = v \/ own o !! k = Some x).
  { cbn [defineOwn own]. destruct (decide (key = k)) as [->|Hne].
    - rewrite lookup_insert_eq. intros [= <-]. now left.
    - rewrite lookup_insert_ne by exact Hne. now right. }
  destruct (own o !! key); [exact Hdefine|].
  destruct (String.eqb key "__proto__" && reachesObjectPrototype (proto o));
    [|exact Hdefine].
  destruct v; cbn [setPrototype own]; now right.
Qed.

Lemma forEach_assign_values (value : list ConfigValue) (data data' : ConfigData) :
  forEach_assign value data = Ret data' ->
  (forall k x, own data !! k = Some x -> isValue x = true) ->
  forall k x, own data' !! k = Some x -> isValue x = true.
Proof.
  revert data. induction value as [|v rest IH]; intros data; simpl.
  - now intros [= ->].
  - destruct (parseValue (cv_type v) (cv_value v)) as [p|e] eqn:Hp; simpl; [|discriminate].
    intros Hrun Hdata. apply (IH _ Hrun). intros k x Hx.
    destruct (own_assign_cases _ _ _ _ _ Hx) as [-> | Hold].
    + exact (parseValue_Ret_isValue _ _ _ Hp).
    + exact (Hdata _ _ Hold).
Qed.

(** What an own key of the returned object holds. *)
Lemma mapConfig_lookup (value : list ConfigValue) (config : ConfigData) (f : string) :
  mapConfig value = Ret config ->
  (f ∉ ids value -> own config !! f = None)
  /\ (f ∈ ids value -> f <> "__proto__"%string ->
      exists x, own config !! f = Some x /\ isValue x = true).
Proof.
  unfold mapConfig, ids. intros Hrun. split.
  - intros Hf. rewrite (forEach_assign_other _ _ _ f Hrun Hf). apply lookup_empty.
  - intros Hf Hkey.
    assert (Hdom : f ∈ dom (own config))
      by (rewrite (forEach_assign_dom _ _ _ f Hrun Hkey); now right).
    apply elem_of_dom in Hdom as [x Hx]. exists x. split; [exact Hx|].
    apply (forEach_assign_values _ _ _ Hrun) with (k := f); [|exact Hx].
    intros k y. cbn [emptyObject own]. now rewrite lookup_empty.
Qed.

(** X4. [mapConfig] stops at the first entry, in list order, whose type
    tag is neither falsy nor one of the four: the TypeError it throws names
    that tag, whatever comes after the entry. *)
Theorem mapConfig_throws_for_first_rejected_tag (before : list ConfigValue)
    (v : ConfigValue) (after : list ConfigValue) (tag : string) :
  Forall (fun w => tagAccepted (cv_type w)) before ->
  cv_type v = Some tag -> ~ tagAccepted (cv_type v) ->
  mapConfig (before ++ v :: after)
  = Throw (TypeError ("unknown config type '" +:+ tag +:+ "'")).
Proof. intros Hbefore Htag Hno. now apply forEach_assign_first_rejected. Qed.

Lemma mapConfig_throws_for_first_rejected_tag_witness :
  mapConfig ([ {| cv_id := "A"; cv_type := Some "string"%string; cv_value := "a" |} ]
             ++ {| cv_id := "B"; cv_type := Some "float"%string; cv_value := "1" |}
             :: [ {| cv_id := "C"; cv_type := Some "double"%string; cv_value := "2" |} ])
  = Throw (TypeError ("unknown config type '" +:+ "float" +:+ "'")).
Proof.
  apply mapConfig_throws_for_first_rejected_tag.
  - constructor; [|constructor]. right. exists "string"%string.
    split; [reflexivity|]. unfold knownTags. set_solver.
  - reflexivity.
  - intros [[H | H] | (tag & [= <-] & Hin)]; [discriminate H | discriminate H |].
    unfold knownTags in Hin. rewrite !elem_of_cons, elem_of_nil in Hin.
    destruct Hin as [H | [H | [H | [H | []]]]]; discriminate H.
Defined.



(** With the id ['__proto__'] the same does not hold: the first entry
    takes the prototype away, and only then is the second one stored. *)
Example mapConfig_shadowed_proto_entry :
  let first := {| cv_id := "__proto__"; cv_type := None; cv_value := "" |} in
  let second := {| cv_id := "__proto__"; cv_type := Some "string"%string;
                   cv_value := "x" |} in
  mapConfig [first; second] <> mapConfig [second].
Proof. vm_compute. discriminate. Qed.

(** X6. When the config list parses and has no id ['__proto__'],
    [useConfigValue] returns one value per requested field, in order: for
    a field that is an id of the list, the parsed value of the last entry
    with that id (a boolean, number, string, string list or null); for any
    other field what the empty object gives, which is [undefined] unless
    the field names a member of [Object.prototype]. *)
Theorem useConfigValue_one_value_per_field (realm : Realm) (fields : list string)
    (ctx : Context) :
  Forall (fun v => tagAccepted (cv_type v)) (ctx_config ctx) ->
  "__proto__"%string ∉ ids (ctx_config ctx) ->
  exists values,
    useConfigValue realm fields ctx = Ret values
    /\ length values = length fields
    /\ forall (i : nat) (f : string), fields !! i = Some f ->
         exists x, values !! i = Some x
           /\ (f ∈ ids (ctx_config ctx) ->
               isValue x = true
               /\ forall before v after,
                    ctx_config ctx = before ++ v :: after -> cv_id v = f ->
                    f ∉ ids after -> parseValue (cv_type v) (cv_value v) = Ret x)
           /\ (f ∉ ids (ctx_config ctx) -> x = get realm emptyObject f)
           /\ (f ∉ ids (ctx_config ctx) -> notInherited realm f -> x = JUndefined).
Proof.
  intros Hall Hplain. unfold useConfigValue, useConfig.
  destruct (forEach_assign_returns (ctx_config ctx) emptyObject Hall) as (config & Hrun).
  change (forEach_assign (ctx_config ctx) emptyObject) with (mapConfig (ctx_config ctx)) in Hrun.
  rewrite Hrun. exists (get realm config <$> fields). split; [reflexivity|].
  split; [apply length_fmap|]. intros i f Hf.
  exists (get realm config f). split; [now rewrite list_lookup_fmap, Hf|].
  destruct (mapConfig_lookup _ _ f Hrun) as [Habsent Hpresent].
  pose proof (forEach_assign_prototype _ _ _ Hrun Hplain) as Hproto.
  assert (Hempty : f ∉ ids (ctx_config ctx) -> get realm config f = get realm emptyObject f).
  { intros Hout. unfold get. rewrite (Habsent Hout), Hproto. cbn [emptyObject own proto].
    now rewrite lookup_empty. }
  split; [|split].
  - intros Hin.
    assert (Hkey : f <> "__proto__"%string) by (intros ->; contradiction).
    destruct (Hpresent Hin Hkey) as (x & Hx & Hval). unfold get. rewrite Hx.
    split; [exact Hval|]. intros before v after Hsplit <- Hlast.
    destruct (forEach_assign_last _ _ _ before v after Hrun Hsplit Hkey Hlast)
      as (y & Hy & Hget).
    rewrite Hx in Hget. now injection Hget as <-.
  - exact Hempty.
  - intros Hout [Hkey Hnone]. rewrite (Hempty Hout). unfold get, inherited.
    cbn [emptyObject own proto]. rewrite lookup_empty, Hnone.
    destruct (String.eqb_spec f "__proto__"); [contradiction | reflexivity].
Qed.

Lemma useConfigValue_one_value_per_field_witness :
  let ctx := {| ctx_config := [ {| cv_id := "Mailgun.Enable"; cv_type := Some "boolean"%string;
                                   cv_value := "true" |} ];
                ctx_isAdmin := false; ctx_userID := None |} in
  let fields := ["Mailgun.Enable"; "Slack.Enable"; "toString"]%string in
  exists values,
    useConfigValue standardRealm fields ctx = Ret values
    /\ length values = length fields
    /\ forall (i : nat) (f : string), fields !! i = Some f ->
         exists x, values !! i = Some x
           /\ (f ∈ ids (ctx_config ctx) ->
               isValue x = true
               /\ forall before v after,
                    ctx_config ctx = before ++ v :: after -> cv_id v = f ->
                    f ∉ ids after -> parseValue (cv_type v) (cv_value v) = Ret x)
           /\ (f ∉ ids (ctx_config ctx) -> x = get standardRealm emptyObject f)
           /\ (f ∉ ids (ctx_config ctx) -> notInherited standardRealm f -> x = JUndefined).
Proof.
  intros ctx fields. apply useConfigValue_one_value_per_field.
  - constructor; [|constructor]. right. exists "boolean"%string.
    split; [reflexivity|]. unfold knownTags. set_solver.
  - unfold ids. simpl. rewrite elem_of_cons, elem_of_nil. intros [H | []]. discriminate H.
Defined.

Example useConfigValue_example :
  useConfigValue standardRealm ["Mailgun.Enable"; "Slack.Enable"; "toString"]%string
    {| ctx_config := [ {| cv_id := "Mailgun.Enable"; cv_type := Some "boolean"%string;
                          cv_value := "true" |} ];
       ctx_isAdmin := false; ctx_userID := None |}
  = Ret [JBool true; JUndefined; JObject "Object.prototype.toString"].
Proof. vm_compute. reflexivity. Qed.

End ConfigObject.

(** ** More on the [RequireConfig] gate and the session *)
Section GateInContext.

Context {Element : Type} (realm : Realm).

(** X7. A context whose config list holds an entry of unrecognised type
    makes every hook that reads the config throw the TypeError of the
    first such entry: [useConfig], [useConfigValue] for any fields, and
    [RequireConfig] for any props, even where the admin check alone would
    have decided. *)
Theorem config_hooks_throw_together (ctx : Context) (before : list ConfigValue)
    (v : ConfigValue) (after : list ConfigValue) (tag : string) :
  ctx_config ctx = before ++ v :: after ->
  Forall (fun w => tagAccepted (cv_type w)) before ->
  cv_type v = Some tag -> ~ tagAccepted (cv_type v) ->
  let e := TypeError ("unknown config type '" +:+ tag +:+ "'") in
  useConfig ctx = Throw e
  /\ (forall fields, useConfigValue realm fields ctx = Throw e)
  /\ (forall props : @RequireConfigProps Element, RequireConfig realm props ctx = Throw e).
Proof.
  intros Hsplit Hbefore Htag Hno e.
  assert (Hcfg : useConfig ctx = Throw e).
  { unfold useConfig, mapConfig. rewrite Hsplit.
    now apply forEach_assign_first_rejected. }
  split; [exact Hcfg|]. split.
  - intros fields. unfold useConfigValue. now rewrite Hcfg.
  - intros props. now apply RequireConfig_throws.
Qed.

(** X8. A non-empty [configID] that is no id of the (parsing,
    ['__proto__']-free) config list is read from the prototype.  With the
    default test: if the name is not one of [Object.prototype] either, the
    key reads as [undefined] and the result is the [else] node (null when
    none was passed), whether or not the session is admin; if it names a
    member of [Object.prototype] that passes [isTrue], the gate lets
    [children] through wherever the admin check does. *)
Theorem RequireConfig_absent_key (props : @RequireConfigProps Element) (ctx : Context) :
  Forall (fun v => tagAccepted (cv_type v)) (ctx_config ctx) ->
  "__proto__"%string ∉ ids (ctx_config ctx) ->
  configID props <> EmptyString ->
  configID props ∉ ids (ctx_config ctx) ->
  test props = None ->
  (notInherited realm (configID props) ->
   RequireConfig realm props ctx = Ret (default None (else_ props)))
  /\ (forall member,
        configID props <> "__proto__"%string ->
        ObjectPrototype realm !! configID props = Some member ->
        isTrue member = true ->
        ~ (isAdmin props = Some true /\ ctx_isAdmin ctx = false) ->
        RequireConfig realm props ctx = Ret (children props)).
Proof.
  intros Hall Hplain Hid Habsent Htest.
  destruct (forEach_assign_returns (ctx_config ctx) emptyObject Hall) as (config & Hrun).
  change (forEach_assign (ctx_config ctx) emptyObject) with (useConfig ctx) in Hrun.
  rewrite (RequireConfig_unfold realm props ctx config Hrun), Htest.
  destruct (mapConfig_lookup _ _ (configID props) Hrun) as [Hnone _].
  pose proof (forEach_assign_prototype _ _ _ Hrun Hplain) as Hproto.
  unfold get. rewrite (Hnone Habsent), Hproto. cbn [emptyObject proto inherited].
  apply ToBoolean_JStr in Hid. rewrite Hid. cbn [default andb]. split.
  - intros [Hkey Hmember]. rewrite Hmember.
    destruct (String.eqb_spec (configID props) "__proto__"); [contradiction|].
    cbn [default isTrue ToBoolean negb].
    now destruct (default false (isAdmin props) && negb (ctx_isAdmin ctx)).
  - intros member Hkey Hmember Hpasses Hadmin. rewrite Hmember.
    destruct (String.eqb_spec (configID props) "__proto__"); [contradiction|].
    cbn [default]. unfold id. rewrite Hpasses. cbn [negb].
    destruct (isAdmin props) as [[|]|], (ctx_isAdmin ctx); try reflexivity.
    exfalso. apply Hadmin. split; reflexivity.
Qed.

(** X9. The gate reads nothing of the session but the admin flag, and that
    only when [isAdmin] is asked for: the [userID] never matters, the
    session's admin flag does not matter when the [isAdmin] prop is absent
    or false, and for an admin session the [isAdmin] prop does not
    matter. *)
Theorem RequireConfig_reads_only_what_it_needs (props : @RequireConfigProps Element)
    (ctx : Context) :
  (forall userID,
     RequireConfig realm props {| ctx_config := ctx_config ctx; ctx_isAdmin := ctx_isAdmin ctx;
                                  ctx_userID := userID |}
     = RequireConfig realm props ctx)
  /\ (isAdmin props <> Some true ->
      forall admin,
        RequireConfig realm props {| ctx_config := ctx_config ctx; ctx_isAdmin := admin;
                                     ctx_userID := ctx_userID ctx |}
        = RequireConfig realm props ctx)
  /\ (ctx_isAdmin ctx = true ->
      forall want,
        RequireConfig realm {| configID := configID props; test := test props;
                               else_ := else_ props; isAdmin := want;
                               children := children props |} ctx
        = RequireConfig realm props ctx).
Proof.
  split; [|split].
  - intros userID. reflexivity.
  - intros Hwant admin. unfold RequireConfig, useConfig; simpl.
    destruct (mapConfig (ctx_config ctx)) as [config|e]; [|reflexivity]. simpl.
    destruct (isAdmin props) as [[|]|]; simpl; [congruence | reflexivity | reflexivity].
  - intros Hadmin want. unfold RequireConfig, useConfig; simpl.
    destruct (mapConfig (ctx_config ctx)) as [config|e]; [|reflexivity]. simpl.
    rewrite Hadmin. simpl. now rewrite !andb_false_r.
Qed.


End GateInContext.

Lemma config_hooks_throw_together_witness :
  let bad := {| cv_id := "B"; cv_type := Some "float"%string; cv_value := "1" |} in
  let ctx := {| ctx_config := [] ++ bad :: []; ctx_isAdmin := false; ctx_userID := None |} in
  let e := TypeError ("unknown config type '" +:+ "float" +:+ "'") in
  useConfig ctx = Throw e
  /\ (forall fields, useConfigValue standardRealm fields ctx = Throw e)
  /\ (forall props : @RequireConfigProps string,
        RequireConfig standardRealm props ctx = Throw e).
Proof.
  intros bad ctx.
  apply (config_hooks_throw_together (Element := string) standardRealm ctx [] bad [] "float").
  - reflexivity.
  - constructor.
  - reflexivity.
  - intros [[H | H] | (tag & [= <-] & Hin)]; [discriminate H | discriminate H |].
    unfold knownTags in Hin. rewrite !elem_of_cons, elem_of_nil in Hin.
    destruct Hin as [H | [H | [H | [H | []]]]]; discriminate H.
Defined.

Lemma RequireConfig_absent_key_witness :
  let absent := {| configID := "Slack.Enable"; test := None;
                   else_ := Some (Some "off"%string); isAdmin := Some true;
                   children := Some "on"%string |} in
  let member := {| configID := "toString"; test := None;
                   else_ := Some (Some "off"%string); isAdmin := None;
                   children := Some "on"%string |} in
  RequireConfig standardRealm absent (ConfigProvider None) = Ret (Some "off"%string)
  /\ RequireConfig standardRealm member (ConfigProvider None) = Ret (Some "on"%string).
Proof.
  intros absent member.
  assert (Hplain : "__proto__"%string ∉ ids (ctx_config (ConfigProvider None)))
    by (unfold ids; simpl; apply not_elem_of_nil).
  assert (Hnone : forall key, key ∉ ids (ctx_config (ConfigProvider None)))
    by (intros key; unfold ids; simpl; apply not_elem_of_nil).
  split.
  - refine (proj1 (RequireConfig_absent_key standardRealm absent (ConfigProvider None)
                     _ Hplain _ (Hnone _) eq_refl) _).
    + constructor.
    + discriminate.
    + split; [discriminate | vm_compute; reflexivity].
  - refine (proj2 (RequireConfig_absent_key standardRealm member (ConfigProvider None)
                     _ Hplain _ (Hnone _) eq_refl)
                  (JObject "Object.prototype.toString") _ _ _ _).
    + constructor.
    + discriminate.
    + discriminate.
    + vm_compute. reflexivity.
    + reflexivity.
    + intros [H _]. discriminate H.
Defined.


(** ** The session a [ConfigProvider] gives *)
Section ProvidedSession.

(** X11. Under a [ConfigProvider] the [userID] is never the empty string,
    so [ready] holds exactly when [userID] is not null, that is, exactly
    when the query returned a user with a non-empty id; and [isAdmin]
    needs a user. *)
Theorem provided_session_ready_iff_userID (data : option QueryData) :
  let session := useSessionInfo (ConfigProvider data) in
  si_userID session <> Some EmptyString
  /\ (si_ready session = true <-> si_userID session <> None)
  /\ (si_ready session = true
      <-> exists user, data ≫= data_user = Some user /\ user_id user <> EmptyString)
  /\ (si_isAdmin session = true -> data ≫= data_user <> None).
Proof.
  unfold useSessionInfo, ConfigProvider; cbn [ctx_userID ctx_isAdmin si_userID si_ready
    si_isAdmin].
  destruct (data ≫= data_user) as [user|].
  - pose proof (ToBoolean_JStr (user_id user)) as Hid.
    destruct (ToBoolean (JStr (user_id user))) eqn:E.
    + assert (Hne : user_id user <> EmptyString) by now apply Hid.
      cbn [ofNullable]. rewrite E. repeat split; try congruence.
      * intros _. exists user. auto.
    + assert (He : ~ user_id user <> EmptyString) by (intros H; apply Hid in H; discriminate).
      cbn [ofNullable ToBoolean]. repeat split; try congruence.
      intros (u & [= <-] & Hu). contradiction.
  - cbn [ofNullable ToBoolean]. repeat split; try congruence.
    intros (u & [=] & _).
Qed.

End ProvidedSession.

(** ** More on the [LinkToMobile] dialog *)
Section LinkToMobileEvents.
Import LinkToMobile.

Lemma Object_is_orEmpty (flag : option bool) : Object_is (orEmpty flag) (orEmpty flag) = true.
Proof. now destruct flag as [[|]|]. Qed.

Lemma synced_commit (st : State) : synced (commit st).
Proof.
  destruct (commit_deps st) as (Hdata & Hshow & Hd1 & Hd2 & Hd3).
  unfold synced, claimedOf, verifiedOf. now rewrite Hdata, Hshow, Hd1, Hd2, Hd3.
Qed.

Lemma synced_run (evs : list Event) : synced (run evs).
Proof.
  unfold run. destruct evs as [|ev evs _] using rev_ind; [apply synced_commit|].
  rewrite fold_left_app. apply synced_commit.
Qed.

(** Between two events nothing is pending: a render without a change runs
    no effect and leaves the state as it is. *)
Lemma effects_synced (st : State) : synced st -> effects st = [].
Proof.
  intros (Hshow & Hclaimed & Hverified). unfold effects, useEffect, depChanged.
  rewrite Hshow, Hclaimed, Hverified. unfold claimedOf, verifiedOf.
  rewrite !Object_is_orEmpty. simpl. now destruct (showDialog st).
Qed.

Lemma commit_synced (st : State) : synced st -> commit st = st.
Proof.
  intros Hst. unfold commit. rewrite (effects_synced st Hst). simpl.
  destruct Hst as (Hshow & Hclaimed & Hverified).
  destruct st; simpl in *. now rewrite Hshow, Hclaimed, Hverified.
Qed.

(** The calls of the render that follows an event. *)
Lemma effects_handle (st : State) (ev : Event) :
  synced st ->
  effects (handle ev st)
  = match ev with
    | QueryResult d =>
        (if reportsTrue (d ≫= claimed) && negb (reportsTrue (data st ≫= claimed))
         then [setIndex 1] else [])
        ++ (if reportsTrue (d ≫= verified) && negb (reportsTrue (data st ≫= verified))
            then [setIndex 2] else [])
    | ChangeIndex _ => []
    | SetShowDialog b => if b && negb (showDialog st) then [createAuthLink] else []
    end.
Proof.
  intros Hst. pose proof Hst as (Hshow & Hclaimed & Hverified). destruct ev as [d|i|b].
  - rewrite (effects_after_poll st d Hshow), Hclaimed, Hverified.
    unfold claimedOf, verifiedOf. now rewrite !rememberedTrue_orEmpty.
  - apply effects_synced. exact Hst.
  - unfold effects, useEffect, depChanged, claimedOf, verifiedOf in *; simpl.
    rewrite Hshow, Hclaimed, Hverified, !Object_is_orEmpty. simpl.
    rewrite app_nil_r. now destruct b, (showDialog st).
Qed.

Lemma index_step (st : State) (ev : Event) :
  synced st ->
  index (step st ev)
  = match ev with
    | QueryResult d =>
        if reportsTrue (d ≫= verified) && negb (reportsTrue (data st ≫= verified)) then 2
        else if reportsTrue (d ≫= claimed) && negb (reportsTrue (data st ≫= claimed)) then 1
        else index st
    | ChangeIndex i => i
    | SetShowDialog _ => index st
    end.
Proof.
  intros Hst.
  change (index (step st ev)) with (index (fold_left perform (effects (handle ev st)) (handle ev st))).
  rewrite (effects_handle st ev Hst). destruct ev as [d|i|b]; simpl.
  - now destruct (reportsTrue (d ≫= claimed) && _), (reportsTrue (d ≫= verified) && _).
  - reflexivity.
  - now destruct (b && negb (showDialog st)).
Qed.

Lemma handle_step (st : State) (ev : Event) :
  synced st -> handle ev (step st ev) = step st ev.
Proof.
  intros Hst. destruct ev as [d|i|b].
  - unfold step. destruct (commit_deps (handle (QueryResult d) st)) as (Hdata & _).
    remember (commit (handle (QueryResult d) st)) as st1 eqn:E. clear E.
    cbn [handle data] in Hdata. destruct st1; simpl in *. now subst.
  - pose proof (index_step st (ChangeIndex i) Hst) as Hindex.
    remember (step st (ChangeIndex i)) as st1 eqn:E. clear E.
    destruct st1; simpl in *. now subst.
  - unfold step. destruct (commit_deps (handle (SetShowDialog b) st)) as (_ & Hshow & _).
    remember (commit (handle (SetShowDialog b) st)) as st1 eqn:E. clear E.
    cbn [handle showDialog] in Hshow. destruct st1; simpl in *. now subst.
Qed.

Lemma slideRenderer_NoSlide (i : Z) : slideRenderer i = NoSlide <-> i < 0 \/ 3 < i.
Proof.
  unfold slideRenderer.
  destruct i as [|p|p]; [split; [discriminate | lia] | | split; [lia | reflexivity]].
  destruct p as [[q|q|]|[q|q|]|]; split; try discriminate; try reflexivity; lia.
Qed.

(** X12. [createAuthLink] is called on exactly one occasion: the render
    after the dialog goes from closed to open.  A query result, a swipe,
    closing the dialog, or opening one that is open never create a
    link. *)
Theorem createAuthLink_only_when_dialog_opens (evs : list Event) (ev : Event) :
  In createAuthLink (effects (handle ev (run evs)))
  <-> ev = SetShowDialog true /\ showDialog (run evs) = false.
Proof.
  rewrite (effects_handle _ ev (synced_run evs)). destruct ev as [d|i|b].
  - split; [|intros [[=] _]].
    destruct (reportsTrue (d ≫= claimed) && _), (reportsTrue (d ≫= verified) && _);
      simpl; intuition discriminate.
  - split; [intros [] | intros [[=] _]].
  - destruct b, (showDialog (run evs)); simpl; intuition discriminate.
Qed.

(** X13. Only query results and swipes move the slide: opening or closing
    the dialog leaves the index and the held query result alone (a
    reopened dialog shows the slide it was closed on), and a swipe to [i]
    sets the index to [i] as it is, which renders nothing exactly when [i]
    is outside 0..3. *)
Theorem index_survives_close_and_follows_swipe (evs : list Event) :
  (forall b, index (step (run evs) (SetShowDialog b)) = index (run evs)
             /\ data (step (run evs) (SetShowDialog b)) = data (run evs)
             /\ showDialog (step (run evs) (SetShowDialog b)) = b)
  /\ (forall i, index (step (run evs) (ChangeIndex i)) = i
                /\ (slideRenderer (index (step (run evs) (ChangeIndex i))) = NoSlide
                    <-> i < 0 \/ 3 < i)).
Proof.
  split.
  - intros b. rewrite (index_step _ _ (synced_run evs)). split; [reflexivity|].
    unfold step. destruct (commit_deps (handle (SetShowDialog b) (run evs)))
      as (-> & -> & _). split; reflexivity.
  - intros i. rewrite (index_step _ _ (synced_run evs)). split; [reflexivity|].
    apply slideRenderer_NoSlide.
Qed.

(** X14. Delivering the same event twice in a row is the same as
    delivering it once: a repeated query result, swipe or open/close
    changes nothing and runs no effect. *)
Theorem repeated_event_changes_nothing (evs : list Event) (ev : Event) :
  step (step (run evs) ev) ev = step (run evs) ev
  /\ effects (handle ev (step (run evs) ev)) = [].
Proof.
  rewrite (handle_step _ ev (synced_run evs)).
  assert (Hst : synced (step (run evs) ev)) by apply synced_commit.
  split; [|now apply effects_synced].
  unfold step at 1. rewrite (handle_step _ ev (synced_run evs)).
  now apply commit_synced.
Qed.

(** X15. As long as the user does not swipe, the index is 0, 1 or 2, and
    the slide is the claim code, the verify-code fields or the success
    view: query results never lead to the retry slide or to an empty
    one. *)
Theorem index_without_swipe (evs : list Event) :
  forallb noSwipe evs = true ->
  (index (run evs) = 0 \/ index (run evs) = 1 \/ index (run evs) = 2)
  /\ (slideRenderer (index (run evs)) = ClaimCodeDisplay
      \/ slideRenderer (index (run evs)) = VerifyCodeFields
      \/ slideRenderer (index (run evs)) = Success).
Proof.
  intros Hevs.
  assert (Hindex : index (run evs) = 0 \/ index (run evs) = 1 \/ index (run evs) = 2).
  { induction evs as [|ev evs IH] using rev_ind; [now left|].
    rewrite forallb_app in Hevs. apply andb_prop in Hevs as [Hevs Hev].
    specialize (IH Hevs).
    replace (run (evs ++ [ev])) with (step (run evs) ev)
      by (unfold run; now rewrite fold_left_app).
    rewrite (index_step _ ev (synced_run evs)). destruct ev as [d|i|b].
    - destruct (reportsTrue (d ≫= verified) && _); [now (right; right)|].
      destruct (reportsTrue (d ≫= claimed) && _); [now (right; left) | exact IH].
    - discriminate Hev.
    - exact IH. }
  split; [exact Hindex|].
  destruct Hindex as [-> | [-> | ->]]; simpl; auto.
Qed.

Lemma index_without_swipe_witness :
  let d := Some {| als_id := "link-1"; als_expiresAt := ""; claimed := Some true;
                   verified := Some true; authed := None |} in
  let evs := [SetShowDialog true; QueryResult d; SetShowDialog false] in
  (index (run evs) = 0 \/ index (run evs) = 1 \/ index (run evs) = 2)
  /\ (slideRenderer (index (run evs)) = ClaimCodeDisplay
      \/ slideRenderer (index (run evs)) = VerifyCodeFields
      \/ slideRenderer (index (run evs)) = Success).
Proof.
  intros d evs. apply (index_without_swipe evs). reflexivity.
Defined.

End LinkToMobileEvents.

(** ** How many keys the config object has *)
Section ConfigSize.

Lemma forEach_assign_size (value : list ConfigValue) (data data' : ConfigData) :
  forEach_assign value data = Ret data' ->
  "__proto__"%string ∉ ids value ->
  (size (own data') <= size (own data) + length value)%nat
  /\ (NoDup (ids value) -> (forall k, k ∈ ids value -> own data !! k = None) ->
      size (own data') = (size (own data) + length value)%nat).
Proof.
  unfold ids. revert data. induction value as [|v rest IH]; intros data; simpl.
  - intros [= ->] _. split; [lia | intros _ _; lia].
  - destruct (parseValue (cv_type v) (cv_value v)) as [p|e]; simpl; [|discriminate].
    intros Hrun Hplain. apply not_elem_of_cons in Hplain as [Hkey Hplain].
    rewrite assign_plain_key in Hrun by congruence.
    destruct (IH _ Hrun Hplain) as [Hle Heq]. cbn [defineOwn own] in Hle, Heq. split.
    + rewrite map_size_insert in Hle. destruct (own data !! cv_id v); simpl in Hle; lia.
    + intros Hnodup Hfresh. apply NoDup_cons in Hnodup as [Hhead Hnodup].
      rewrite Heq; [| exact Hnodup |].
      * rewrite map_size_insert_None; [lia|]. apply Hfresh. now left.
      * intros k Hk. rewrite lookup_insert_ne; [apply Hfresh; now right|].
        intros <-. contradiction.
Qed.

(** X16. For a list that parses and has no id ['__proto__'], the object
    [mapConfig] returns has at most as many own keys as the list has
    entries, and exactly as many when no id occurs twice. *)
Theorem mapConfig_size (value : list ConfigValue) :
  Forall (fun v => tagAccepted (cv_type v)) value ->
  "__proto__"%string ∉ ids value ->
  exists config, mapConfig value = Ret config
    /\ (size (own config) <= length value)%nat
    /\ (NoDup (ids value) -> size (own config) = length value).
Proof.
  intros Hall Hplain.
  destruct (forEach_assign_returns value emptyObject Hall) as (config & Hrun).
  exists config. split; [exact Hrun|].
  destruct (forEach_assign_size _ _ _ Hrun Hplain) as [Hle Heq].
  cbn [emptyObject own] in Hle, Heq. rewrite map_size_empty in Hle, Heq.
  split; [exact Hle|].
  intros Hnodup. apply Heq; [exact Hnodup|]. intros k _. apply lookup_empty.
Qed.

Lemma mapConfig_size_witness :
  let value := [ {| cv_id := "A"; cv_type := Some "integer"%string; cv_value := "1" |};
                 {| cv_id := "B"; cv_type := None; cv_value := "x" |} ] in
  exists config, mapConfig value = Ret config
    /\ (size (own config) <= length value)%nat
    /\ (NoDup (ids value) -> size (own config) = length value).
Proof.
  intros value. apply mapConfig_size.
  - constructor; [|constructor; [|constructor]].
    + right. exists "integer"%string. split; [reflexivity|]. unfold knownTags. set_solver.
    + left. now left.
  - unfold ids. simpl. rewrite !elem_of_cons, elem_of_nil.
    intros [H | [H | []]]; discriminate H.
Defined.

End ConfigSize.

(** ** An entry with the id ['__proto__'] *)
Section ProtoEntry.

(** X18. The first entry with the id ['__proto__'] is not stored: the
    assignment reaches the setter [Object.prototype] provides.  After a
    list without that id, such an entry leaves the object as it was when
    its type is ['boolean'], ['integer'] or ['string'], makes the parsed
    list the prototype when its type is ['stringList'], and takes the
    prototype away when it has no type; in no case does the object get an
    own key ['__proto__']. *)
Theorem mapConfig_proto_entry (before : list ConfigValue) (v : ConfigValue) :
  Forall (fun w => tagAccepted (cv_type w)) before ->
  "__proto__"%string ∉ ids before ->
  cv_id v = "__proto__"%string ->
  exists data,
    mapConfig before = Ret data
    /\ (cv_type v = Some "boolean"%string \/ cv_type v = Some "integer"%string
        \/ cv_type v = Some "string"%string ->
        mapConfig (before ++ [v]) = Ret data)
    /\ (cv_type v = Some "stringList"%string ->
        mapConfig (before ++ [v])
        = Ret (setPrototype data
                 (ProtoArray (if String.eqb (cv_value v) "" then []
                              else JStr <$> split (cv_value v) LF))))
    /\ (falsyTag (cv_type v) ->
        mapConfig (before ++ [v]) = Ret (setPrototype data ProtoNull))
    /\ own data !! "__proto__"%string = None.
Proof.
  intros Hall Hplain Hid. unfold mapConfig.
  destruct (forEach_assign_returns before emptyObject Hall) as (data & Hrun).
  exists data. split; [exact Hrun|].
  assert (Hown : own data !! "__proto__"%string = None).
  { rewrite (forEach_assign_other _ _ _ _ Hrun Hplain). apply lookup_empty. }
  assert (Hproto : proto data = ProtoObjectPrototype)
    by apply (forEach_assign_prototype _ _ _ Hrun Hplain).
  assert (Hassign : forall x,
    assign data "__proto__" x
    = match x with
      | JNull => setPrototype data ProtoNull
      | JArr items => setPrototype data (ProtoArray items)
      | JObject name =>
          setPrototype data (if String.eqb name "Object.prototype"
                             then ProtoObjectPrototype else ProtoBuiltin name)
      | _ => data
      end).
  { intros x. unfold assign. now rewrite Hown, Hproto. }
  rewrite forEach_assign_app, Hrun. cbn [bind forEach_assign]. rewrite Hid.
  split; [|split; [|split; [|exact Hown]]].
  - intros [-> | [-> | ->]].
    + rewrite parseValue_boolean. cbn. now rewrite Hassign.
    + rewrite parseValue_integer. cbn. now rewrite Hassign.
    + rewrite parseValue_string. cbn. now rewrite Hassign.
  - intros ->. rewrite parseValue_stringList. cbn. now rewrite Hassign.
  - intros Hfalsy. rewrite (parseValue_missing _ _ Hfalsy). cbn. now rewrite Hassign.
Qed.

Lemma mapConfig_proto_entry_witness :
  let flag := {| cv_id := "Mailgun.Enable"; cv_type := Some "boolean"%string;
                 cv_value := "true" |} in
  let v := {| cv_id := "__proto__"; cv_type := Some "string"%string; cv_value := "x" |} in
  exists data,
    mapConfig [flag] = Ret data
    /\ (cv_type v = Some "boolean"%string \/ cv_type v = Some "integer"%string
        \/ cv_type v = Some "string"%string ->
        mapConfig ([flag] ++ [v]) = Ret data)
    /\ (cv_type v = Some "stringList"%string ->
        mapConfig ([flag] ++ [v])
        = Ret (setPrototype data
                 (ProtoArray (if String.eqb (cv_value v) "" then []
                              else JStr <$> split (cv_value v) LF))))
    /\ (falsyTag (cv_type v) ->
        mapConfig ([flag] ++ [v]) = Ret (setPrototype data ProtoNull))
    /\ own data !! "__proto__"%string = None.
Proof.
  intros flag v. apply (mapConfig_proto_entry [flag] v).
  - constructor; [|constructor]. right. exists "boolean"%string.
    split; [reflexivity|]. unfold knownTags. set_solver.
  - unfold ids. simpl. rewrite elem_of_cons, elem_of_nil. intros [H | []]. discriminate H.
  - reflexivity.
Defined.

(** Read back, the prototype shows: with a string list as prototype the
    config object answers for [length] and for the indices. *)
Example useConfigValue_through_list_prototype :
  useConfigValue standardRealm ["length"; "0"; "1"; "2"; "__proto__"; "join"]%string
    {| ctx_config := [ {| cv_id := "__proto__"; cv_type := Some "stringList"%string;
                          cv_value := "a" +:+ String LF "b" |} ];
       ctx_isAdmin := false; ctx_userID := None |}
  = Ret [JNum (Int 2); JStr "a"; JStr "b"; JUndefined; JArr [JStr "a"; JStr "b"];
         JObject "Array.prototype.join"].
Proof. vm_compute. reflexivity. Qed.

End ProtoEntry.

(** ** The auth link and the status query *)
Section AuthLinkQuery.
Import AuthLink.

(** X17. The status query runs exactly when the mutation has answered
    with a non-empty link id, and is then sent with that id: it is never
    sent with an empty id.  The spinner shows only while the mutation is in
    flight without data, and then the query is skipped; with neither data
    nor a mutation in flight (the render before [createAuthLink] is
    called) the slides are shown with an empty id and claim code. *)
Theorem status_query_needs_a_link (status : MutationResult) :
  (skip status = false
   <-> exists link, mutation_data status = Some link /\ link_id link <> EmptyString)
  /\ (skip status = true <-> authLinkID status = EmptyString)
  /\ (forall id, queryVariables status = Some id ->
        id <> EmptyString
        /\ exists link, mutation_data status = Some link /\ link_id link = id)
  /\ (dialogBody status = Spinner
      <-> mutation_data status = None /\ mutation_loading status = true)
  /\ (dialogBody status = Spinner -> skip status = true)
  /\ (mutation_data status = None -> mutation_loading status = false ->
      dialogBody status = Slides EmptyString EmptyString).
Proof.
  unfold queryVariables, dialogBody, skip, loading, authLinkID, claimCode.
  destruct status as [[link|] inflight]; cbn [mutation_data mutation_loading negb andb orb].
  - pose proof (ToBoolean_JStr (link_id link)) as Hid.
    destruct (ToBoolean (JStr (link_id link))) eqn:E; cbn [negb].
    + assert (Hne : link_id link <> EmptyString) by now apply Hid.
      split; [split; [intros _; exists link; auto | reflexivity]|].
      split; [split; [discriminate | intros H; contradiction]|].
      split; [intros id [= <-]; split; [exact Hne | exists link; auto]|].
      split; [split; [discriminate | intros [[=] _]]|].
      split; discriminate.
    + assert (Hempty : link_id link = EmptyString).
      { destruct (decide (link_id link = EmptyString)) as [|Hne]; [assumption|].
        apply Hid in Hne. discriminate. }
      split; [split; [discriminate | intros (l & [= <-] & Hl); contradiction]|].
      split; [split; auto|].
      split; [discriminate|].
      split; [split; [discriminate | intros [[=] _]]|].
      split; discriminate.
  - change (negb (ToBoolean (JStr ""))) with true. rewrite orb_true_r.
    split; [split; [discriminate | intros (l & [=] & _)]|].
    split; [split; auto|].
    split; [discriminate|].
    destruct inflight.
    + split; [split; auto|]. split; [auto | discriminate].
    + split; [split; [discriminate | intros [_ [=]]]|]. split; [discriminate | reflexivity].
Qed.

End AuthLinkQuery.

